(** * Adaptive arithmetic drill engine

    A shallow embedding of the leveling engine ([native/src/lib/math.ts]),
    of the numeric answer contract
    ([src/features/training/providers/mathTrainingProvider.ts]) and of the
    submit path of the session hook
    ([src/features/training/useTrainingSession.ts]), followed by the
    properties of the specification that concern them.

    Conventions.  A TypeScript [number] that holds a level, a counter or a
    duration in milliseconds is a [Z]; a ratio computed with [/] is a [Q]
    (exact rationals stand for the doubles of the source, see
    [accuracyFromHistory]); an optional field is an [option]; an array is a
    [list]; [Math.random()] and [Date.now()] are explicit inputs. *)

From Stdlib Require Import ZArith QArith Qround String Ascii.
From Stdlib Require Import DecimalString DecimalZ DecimalPos.
From Stdlib Require Import Lia Lqa.
From stdpp Require Import base list gmap strings.

Open Scope Z_scope.

(** ** [native/src/lib/math.ts] *)

Module MathLib.

Inductive SkillKey := add | sub | mul | div.

#[global] Instance SkillKey_eq_dec : EqDecision SkillKey.
Proof. solve_decision. Defined.

Record Result := mkResult { correct : bool; ms : Z }.

Record SkillStats := mkSkillStats {
  level : Z;
  streak : Z;
  mistakeStreak : Z;
  history : list Result
}.

(** [Record<SkillKey, SkillStats>]: one entry per key. *)
Record Stats := mkStats {
  stats_add : SkillStats;
  stats_sub : SkillStats;
  stats_mul : SkillStats;
  stats_div : SkillStats
}.

(** [stats[skill]] *)
Definition getSkill (stats : Stats) (skill : SkillKey) : SkillStats :=
  match skill with
  | add => stats_add stats
  | sub => stats_sub stats
  | mul => stats_mul stats
  | div => stats_div stats
  end.

(** [{ ...stats, [skill]: entry }] *)
Definition setSkill (stats : Stats) (skill : SkillKey) (entry : SkillStats)
  : Stats :=
  match skill with
  | add => mkStats entry (stats_sub stats) (stats_mul stats) (stats_div stats)
  | sub => mkStats (stats_add stats) entry (stats_mul stats) (stats_div stats)
  | mul => mkStats (stats_add stats) (stats_sub stats) entry (stats_div stats)
  | div => mkStats (stats_add stats) (stats_sub stats) (stats_mul stats) entry
  end.

Record LevelSpec := mkLevelSpec {
  minA : option Z;
  maxA : Z;
  minB : option Z;
  maxB : Z;
  allowNegative : option bool
}.

Definition MAX_HISTORY : Z := 12.
Definition MAX_LEVEL : Z := 50.

(** [array.slice(0, n)] for [n >= 0]. *)
Definition slice_prefix {A} (n : Z) (l : list A) : list A :=
  take (Z.to_nat n) l.

(** [array.slice(-n)] for [n > 0]: the start index is
    [max(length - n, 0)]. *)
Definition slice_last {A} (n : Z) (l : list A) : list A :=
  drop (Z.to_nat (Z.max (Z.of_nat (length l) - n) 0)) l.

Definition linearSpec (max : Z) : LevelSpec :=
  mkLevelSpec None max None max None.

(** The [for] loop of [buildLinearLevels]; [fuel] bounds the iterations
    left, [i] is the loop index. *)
Fixpoint linearLoop (fuel : nat) (i current step : Z) : list LevelSpec :=
  match fuel with
  | O => []
  | S fuel' =>
      if i <? MAX_LEVEL then
        let current' := current + step in
        linearSpec current' :: linearLoop fuel' (i + 1) current' step
      else []
  end.

Definition buildLinearLevels (base : list Z) (step : Z) : list LevelSpec :=
  let levels := linearSpec <$> slice_prefix MAX_LEVEL base in
  match last levels with
  | None => levels
  | Some final =>
      let n := Z.of_nat (length levels) in
      levels ++ linearLoop (Z.to_nat (MAX_LEVEL - n)) n (maxA final) step
  end.

(** The [for] loop of [buildDivLevels]. *)
Fixpoint divLoop (fuel : nat) (startIndex i mnA mxA mxB : Z)
  : list LevelSpec :=
  match fuel with
  | O => []
  | S fuel' =>
      if i <? MAX_LEVEL then
        let mxA' := mxA + 5 in
        let mxB' := mxB + 4 in
        let added := i - startIndex + 1 in
        let mnA' := if added mod 5 =? 0 then mnA + 1 else mnA in
        mkLevelSpec (Some mnA') mxA' (Some 0) mxB' None
          :: divLoop fuel' startIndex (i + 1) mnA' mxA' mxB'
      else []
  end.

Definition buildDivLevels (base : list LevelSpec) : list LevelSpec :=
  let levels := slice_prefix MAX_LEVEL base in
  match last levels with
  | None => levels
  | Some final =>
      let startIndex := Z.of_nat (length levels) in
      levels ++ divLoop (Z.to_nat (MAX_LEVEL - startIndex)) startIndex
                  startIndex (default 1 (minA final)) (maxA final)
                  (maxB final)
  end.

Definition BASE_ADD_LEVELS : list Z :=
  [10; 20; 30; 50; 75; 100; 150; 250; 500; 1000; 1500; 2000].
Definition BASE_MUL_LEVELS : list Z :=
  [5; 9; 12; 15; 20; 25; 30; 40; 50; 60; 75; 90].

Definition divSpec (mnA mxA mnB mxB : Z) : LevelSpec :=
  mkLevelSpec (Some mnA) mxA (Some mnB) mxB None.

Definition BASE_DIV_LEVELS : list LevelSpec :=
  [ divSpec 1 5 0 5;   divSpec 1 9 0 9;   divSpec 1 12 0 12;
    divSpec 2 15 0 12; divSpec 2 20 0 15; divSpec 2 25 0 20;
    divSpec 3 30 0 25; divSpec 3 40 0 30; divSpec 4 50 0 40;
    divSpec 5 60 0 50; divSpec 6 75 0 60; divSpec 8 90 0 70 ].

Definition LEVELS (skill : SkillKey) : list LevelSpec :=
  match skill with
  | add => buildLinearLevels BASE_ADD_LEVELS 250
  | sub => buildLinearLevels BASE_ADD_LEVELS 250
  | mul => buildLinearLevels BASE_MUL_LEVELS 5
  | div => buildDivLevels BASE_DIV_LEVELS
  end.

Definition SKILL_LIST : list SkillKey := [add; sub; mul; div].

Definition SKILL_SYMBOLS (skill : SkillKey) : string :=
  match skill with
  | add => "+" | sub => "-" | mul => "x" | div => "/"
  end.

(** The key itself, as a template literal prints it. *)
Definition skillName (skill : SkillKey) : string :=
  match skill with
  | add => "add" | sub => "sub" | mul => "mul" | div => "div"
  end.

Record Question := mkQuestion {
  id : string;
  text : string;
  answer : Z;
  skill : SkillKey;
  qlevel : Z
}.

Definition clamp (value min max : Z) : Z :=
  Z.min (Z.max value min) max.

(** [randomInt(min, max)] on integer bounds ([Math.ceil] and [Math.floor]
    leave them as they are); [r] is the value of [Math.random()]. *)
Definition randomInt (min max : Z) (r : Q) : Z :=
  let safeMin := min in
  let safeMax := max in
  Qfloor (r * inject_Z (safeMax - safeMin + 1)) + safeMin.

(** Indexing past the end of an array yields [undefined]: [None]. *)
Definition getLevelSpec (skill : SkillKey) (level : Z) : option LevelSpec :=
  let specs := LEVELS skill in
  specs !! Z.to_nat (clamp (level - 1) 0 (Z.of_nat (length specs) - 1)).

Definition freshSkill : SkillStats := mkSkillStats 1 0 0 [].

Definition createDefaultStats : Stats :=
  mkStats freshSkill freshSkill freshSkill freshSkill.

(** [history.reduce((total, item) => total + (item.correct ? 1 : 0), 0)] *)
Definition correctCount (history : list Result) : Z :=
  fold_left (fun total item => total + (if correct item then 1 else 0))
            history 0.

(** The quotient is a double in the source and an exact rational here. *)
Definition accuracyFromHistory (history : list Result) : Q :=
  if (length history =? 0)%nat then 0%Q
  else (inject_Z (correctCount history)
        / inject_Z (Z.of_nat (length history)))%Q.

Definition getAccuracy (stats : SkillStats) : Q :=
  accuracyFromHistory (history stats).

Definition getAverageMs (stats : SkillStats) : Q :=
  if (length (history stats) =? 0)%nat then 0%Q
  else
    let total := fold_left (fun sum item => sum + ms item) (history stats) 0 in
    (inject_Z total / inject_Z (Z.of_nat (length (history stats))))%Q.

Definition getTargetMs (level : Z) : Z :=
  let base := 6000 in
  let drop := 300 in
  clamp (base - level * drop) 2400 6000.

(** [x < y] on rationals, as a boolean. *)
Definition Qltb (x y : Q) : bool := negb (Qle_bool y x).

(** The score [getWeakestSkill] gives one skill. *)
Definition skillScore (stats : Stats) (skill : SkillKey) : Q :=
  let history := history (getSkill stats skill) in
  if (length history =? 0)%nat then 0.55%Q else accuracyFromHistory history.

(** One turn of the [forEach] callback on the pair
    [(weakest, weakestScore)]. *)
Definition weakestStep (stats : Stats) (acc : SkillKey * Q) (skill : SkillKey)
  : SkillKey * Q :=
  let score := skillScore stats skill in
  if Qltb score (snd acc) then (skill, score) else acc.

Definition getWeakestSkill (stats : Stats) : SkillKey :=
  fst (fold_left (weakestStep stats) SKILL_LIST
         (default add (SKILL_LIST !! 0%nat), 1%Q)).

(** [Math.max(x, y)] on rationals. *)
Definition Qmaxb (x y : Q) : Q := if Qle_bool x y then y else x.

(** The weight [pickSkill] gives one skill. *)
Definition skillWeight (stats : Stats) (skill : SkillKey) : Q :=
  let history := history (getSkill stats skill) in
  let accuracy :=
    if (length history =? 0)%nat then 0.55%Q
    else accuracyFromHistory history in
  Qmaxb 0.15 (1 - accuracy).

(** The [for ... of] loop of [pickSkill]; running off the end of the list
    is the [return "add"] after the loop. *)
Fixpoint pickLoop (weighted : list (SkillKey * Q)) (roll : Q) : SkillKey :=
  match weighted with
  | [] => add
  | item :: rest =>
      let roll := (roll - item.2)%Q in
      if Qle_bool roll 0 then item.1 else pickLoop rest roll
  end.

(** [r] is the value of [Math.random()]. *)
Definition pickSkill (stats : Stats) (r : Q) : SkillKey :=
  let weighted := (fun skill => (skill, skillWeight stats skill)) <$> SKILL_LIST in
  let total := fold_left (fun sum item => (sum + item.2)%Q) weighted 0%Q in
  let roll := (r * total)%Q in
  pickLoop weighted roll.

Definition updateStats (stats : Stats) (skill : SkillKey) (correct : bool)
    (ms : Z) : Stats :=
  let current := getSkill stats skill in
  let nextHistory :=
    slice_last MAX_HISTORY (history current ++ [mkResult correct ms]) in
  let nextStreak := if correct then streak current + 1 else 0 in
  let nextMistakeStreak := if correct then 0 else mistakeStreak current + 1 in
  let levelMax := Z.of_nat (length (LEVELS skill)) in
  let nextLevel := level current in
  let leveledUp := false in
  let leveledDown := false in
  let '(nextLevel, leveledUp) :=
    if correct && (3 <=? nextStreak) && (ms <=? getTargetMs (level current))
    then
      let nextLevel := clamp (level current + 1) 1 levelMax in
      (nextLevel, negb (nextLevel =? level current))
    else (nextLevel, leveledUp) in
  let '(nextLevel, leveledDown) :=
    if negb correct && (2 <=? nextMistakeStreak)
    then
      let nextLevel := clamp (level current - 1) 1 levelMax in
      (nextLevel, negb (nextLevel =? level current))
    else (nextLevel, leveledDown) in
  setSkill stats skill
    {| level := nextLevel;
       streak := if correct && negb leveledUp then nextStreak else 0;
       mistakeStreak :=
         if negb correct && negb leveledDown then nextMistakeStreak else 0;
       history := nextHistory |}.

(** A number in a template literal; the operands are integers. *)
Definition showZ (n : Z) : string := NilZero.string_of_int (Z.to_int n).

Record QuestionOptions := mkOptions { optAllowNegative : option bool }.

(** What [generateQuestion] reads from the outside: the two values of
    [Math.random()] behind the operands, then [Date.now()] and the
    hexadecimal tail [Math.random().toString(16).slice(2)] of the id. *)
Record Entropy := mkEntropy {
  randA : Q;
  randB : Q;
  now : Z;
  hexTail : string
}.

Definition questionId (skill : SkillKey) (e : Entropy) : string :=
  skillName skill +:+ "-" +:+ showZ (now e) +:+ "-" +:+ hexTail e.

(** [None] stands for the [TypeError] of reading a field of [undefined]. *)
Definition generateQuestion (skill : SkillKey) (level : Z)
    (options : option QuestionOptions) (e : Entropy) : option Question :=
  spec ← getLevelSpec skill level;
  let mnA := default 0 (minA spec) in
  let mnB := default 0 (minB spec) in
  let a := randomInt mnA (maxA spec) (randA e) in
  let b := randomInt mnB (maxB spec) (randB e) in
  match skill with
  | add =>
      Some {| id := questionId skill e;
              text := showZ a +:+ " + " +:+ showZ b;
              answer := a + b;
              skill := skill;
              qlevel := level |}
  | sub =>
      let allowNeg :=
        default (default false (allowNegative spec))
                (options ≫= optAllowNegative) in
      let high := if allowNeg then a else Z.max a b in
      let low := if allowNeg then b else Z.min a b in
      Some {| id := questionId skill e;
              text := showZ high +:+ " - " +:+ showZ low;
              answer := high - low;
              skill := skill;
              qlevel := level |}
  | mul =>
      Some {| id := questionId skill e;
              text := showZ a +:+ " x " +:+ showZ b;
              answer := a * b;
              skill := skill;
              qlevel := level |}
  | div =>
      let divisor := Z.max 1 a in
      let quotient := b in
      let dividend := divisor * quotient in
      Some {| id := questionId skill e;
              text := showZ dividend +:+ " / " +:+ showZ divisor;
              answer := quotient;
              skill := skill;
              qlevel := level |}
  end.

End MathLib.

Import MathLib.

(** ** [updateStats] over an object store

    The same function once more, with the objects it touches made explicit:
    a [Stats] object holds four references to [SkillStats] objects, each of
    which holds a reference to its history array.  Reading a field is a
    lookup in the store; an object literal, a spread copy and
    [[...xs, x].slice(-n)] each allocate one new object.  [Result] objects
    are never assigned to after they are built and are kept by value in the
    arrays. *)

Module Store.

Definition loc := positive.

Inductive object :=
  | ArrayObj (items : list Result)
  | SkillObj (level streak mistakeStreak : Z) (history : loc)
  | StatsObj (r_add r_sub r_mul r_div : loc).

Abbreviation store := (gmap loc object).

(** A new object gets an address no object has yet. *)
Definition alloc (o : object) (h : store) : loc * store :=
  let l := fresh (dom h) in (l, <[l := o]> h).

(** [stats[skill]] on a [Stats] object: the reference stored under the
    key. *)
Definition fieldOf (skill : SkillKey) (o : object) : option loc :=
  match o with
  | StatsObj a s m d =>
      Some match skill with add => a | sub => s | mul => m | div => d end
  | _ => None
  end.

(** [{ ...stats, [skill]: l }]: the other three references are copied. *)
Definition spreadWith (skill : SkillKey) (l : loc) (o : object)
  : option object :=
  match o with
  | StatsObj a s m d =>
      Some match skill with
           | add => StatsObj l s m d
           | sub => StatsObj a l m d
           | mul => StatsObj a s l d
           | div => StatsObj a s m l
           end
  | _ => None
  end.

Definition readArray (h : store) (l : loc) : option (list Result) :=
  match h !! l with
  | Some (ArrayObj items) => Some items
  | _ => None
  end.

(** [None] when the store does not hold objects of the declared types at
    the places read. *)
Definition updateStats (h : store) (stats : loc) (skill : SkillKey)
    (correct : bool) (ms : Z) : option (loc * store) :=
  statsObj ← h !! stats;
  current ← fieldOf skill statsObj;
  currentObj ← h !! current;
  match currentObj with
  | SkillObj c_level c_streak c_mistakeStreak c_history =>
      items ← readArray h c_history;
      let '(nextHistory, h) :=
        alloc (ArrayObj (slice_last MAX_HISTORY
                           (items ++ [mkResult correct ms]))) h in
      let nextStreak := if correct then c_streak + 1 else 0 in
      let nextMistakeStreak :=
        if correct then 0 else c_mistakeStreak + 1 in
      let levelMax := Z.of_nat (length (LEVELS skill)) in
      let nextLevel := c_level in
      let leveledUp := false in
      let leveledDown := false in
      let '(nextLevel, leveledUp) :=
        if correct && (3 <=? nextStreak) && (ms <=? getTargetMs c_level)
        then
          let nextLevel := clamp (c_level + 1) 1 levelMax in
          (nextLevel, negb (nextLevel =? c_level))
        else (nextLevel, leveledUp) in
      let '(nextLevel, leveledDown) :=
        if negb correct && (2 <=? nextMistakeStreak)
        then
          let nextLevel := clamp (c_level - 1) 1 levelMax in
          (nextLevel, negb (nextLevel =? c_level))
        else (nextLevel, leveledDown) in
      let '(entry, h) :=
        alloc (SkillObj nextLevel
                 (if correct && negb leveledUp then nextStreak else 0)
                 (if negb correct && negb leveledDown
                  then nextMistakeStreak else 0)
                 nextHistory) h in
      result ← spreadWith skill entry statsObj;
      Some (alloc result h)
  | _ => None
  end.

(** The [SkillStats] value an object stands for. *)
Definition skillAt (h : store) (l : loc) : option SkillStats :=
  o ← h !! l;
  match o with
  | SkillObj lv st mst hist =>
      items ← readArray h hist;
      Some (mkSkillStats lv st mst items)
  | _ => None
  end.

(** The [Stats] value an object stands for. *)
Definition statsAt (h : store) (l : loc) : option Stats :=
  o ← h !! l;
  match o with
  | StatsObj a s m d =>
      sa ← skillAt h a;
      ss ← skillAt h s;
      sm ← skillAt h m;
      sd ← skillAt h d;
      Some (mkStats sa ss sm sd)
  | _ => None
  end.

(** A store that holds the default stats: four arrays, four [SkillStats]
    objects and the [Stats] object at address 9. *)
Definition defaultStore : store :=
  list_to_map
    [ (1%positive, ArrayObj []); (2%positive, SkillObj 1 0 0 1%positive);
      (3%positive, ArrayObj []); (4%positive, SkillObj 1 0 0 3%positive);
      (5%positive, ArrayObj []); (6%positive, SkillObj 1 0 0 5%positive);
      (7%positive, ArrayObj []); (8%positive, SkillObj 1 0 0 7%positive);
      (9%positive, StatsObj 2%positive 4%positive 6%positive 8%positive) ].

End Store.

(** ** [src/features/training/providers/mathTrainingProvider.ts] *)

Module Provider.

Record MathSettings := mkSettings {
  questionCount : Z;
  timeLimitSeconds : Z;
  negativeLevel : Z
}.

Definition DEFAULT_SETTINGS : MathSettings := mkSettings 10 10 0.

Definition clampValue (value min max : Z) : Z :=
  Z.min (Z.max value min) max.

(** [SettingControl<MathSettings>]; the fields [id], [min], [max] and
    [step] carry a prefix. *)
Record SettingControl := mkControl {
  c_id : string;
  c_label : string;
  c_hint : string;
  c_min : Z;
  c_max : Z;
  c_step : Z;
  getValue : MathSettings -> Z;
  setValue : MathSettings -> Z -> MathSettings;
  formatValue : option (Z -> string)
}.

Definition settingControls : list SettingControl :=
  [ {| c_id := "questionCount";
       c_label := "Questions per session";
       c_hint := "Default is 10";
       c_min := 5; c_max := 50; c_step := 1;
       getValue := fun settings => questionCount settings;
       setValue := fun settings value =>
         mkSettings (clampValue value 5 50) (timeLimitSeconds settings)
           (negativeLevel settings);
       formatValue := None |};
    {| c_id := "timeLimitSeconds";
       c_label := "Time per question";
       c_hint := "Seconds allowed";
       c_min := 5; c_max := 60; c_step := 5;
       getValue := fun settings => timeLimitSeconds settings;
       setValue := fun settings value =>
         mkSettings (questionCount settings) (clampValue value 5 60)
           (negativeLevel settings);
       formatValue := Some (fun value => showZ value +:+ "s") |};
    {| c_id := "negativeLevel";
       c_label := "Negative answers (subtraction)";
       c_hint := "Start showing negatives from a level.";
       c_min := 0; c_max := MAX_LEVEL; c_step := 1;
       getValue := fun settings => negativeLevel settings;
       setValue := fun settings value =>
         mkSettings (questionCount settings) (timeLimitSeconds settings)
           (clampValue value 0 MAX_LEVEL);
       formatValue :=
         Some (fun value => if value =? 0 then "Off"
                            else "Level " +:+ showZ value +:+ "+") |} ].

(** [answer.keypad.rows] *)
Definition keypadRows (allowNegative : bool) : list (list string) :=
  if allowNegative
  then [ ["7"; "8"; "9"]; ["4"; "5"; "6"]; ["1"; "2"; "3"];
         ["-"; "0"; "DEL"; "CLR"] ]
  else [ ["7"; "8"; "9"]; ["4"; "5"; "6"]; ["1"; "2"; "3"];
         ["CLR"; "0"; "DEL"] ].

Definition allowNegativeAnswer (question : Question) (settings : MathSettings)
  : bool :=
  (if skill question is sub then true else false)
  && (0 <? negativeLevel settings)
  && (negativeLevel settings <=? qlevel question).

Definition isDigit (c : ascii) : bool :=
  let n := nat_of_ascii c in ((48 <=? n) && (n <=? 57))%nat.

Definition isDash (c : ascii) : bool := (nat_of_ascii c =? 45)%nat.

(** [s.replace(/[class]/g, "")]: every character of the class goes. *)
Fixpoint stripChars (cls : ascii -> bool) (s : string) : string :=
  match s with
  | EmptyString => EmptyString
  | String c rest =>
      if cls c then stripChars cls rest else String c (stripChars cls rest)
  end.

(** [s.includes("-")] *)
Fixpoint includesDash (s : string) : bool :=
  match s with
  | EmptyString => false
  | String c rest => isDash c || includesDash rest
  end.

(** [s.replace(/(?!^)-/g, "")]: every dash that is not the first character
    of the string goes. *)
Definition stripInnerDashes (s : string) : string :=
  match s with
  | EmptyString => EmptyString
  | String c rest => String c (stripChars isDash rest)
  end.

Definition sanitizeNumericInput (raw : string) (allowNegative : bool)
  : string :=
  let cleaned := stripChars (fun c => negb (isDigit c || isDash c)) raw in
  if negb allowNegative then stripChars isDash cleaned
  else if includesDash cleaned then stripInnerDashes cleaned
  else cleaned.

Inductive ParseError := empty | incomplete | invalid.

(** [AnswerParseResult<number>]: an [error] or a [value]. *)
Inductive AnswerParseResult :=
  | ParseFailed (error : ParseError)
  | Parsed (value : Z).

(** What [Number(value)] yields: a finite number, or one that
    [Number.isFinite] turns down ([NaN], [Infinity], [-Infinity]). *)
Inductive JSNumber :=
  | Finite (value : Z)
  | NotFinite.

Section AnswerContract.

(** The built-in string-to-number conversion. *)
Variable Number : string -> JSNumber.

Definition parseNumericInput (value : string) : AnswerParseResult :=
  if String.eqb value "" then ParseFailed empty
  else if String.eqb value "-" then ParseFailed incomplete
  else
    match Number value with
    | NotFinite => ParseFailed invalid
    | Finite numeric => Parsed numeric
    end.

End AnswerContract.

(** [Number] on what the sanitizer lets through, the strings over digits
    and dashes: an optional leading dash and at least one digit read in base
    ten, the empty string read as 0, anything else [NaN].  A double is
    finite below [2^1024 - 2^970] in magnitude; the rounding of integers
    above [2^53] is left out. *)
Fixpoint digitsValue (acc : Z) (s : string) : option Z :=
  match s with
  | EmptyString => Some acc
  | String c rest =>
      if isDigit c
      then digitsValue (10 * acc + (Z.of_nat (nat_of_ascii c) - 48)) rest
      else None
  end.

Definition finiteOrNot (v : Z) : JSNumber :=
  if Z.abs v <? 2 ^ 1024 - 2 ^ 970 then Finite v else NotFinite.

Definition NumberOfDigits (s : string) : JSNumber :=
  match s with
  | EmptyString => Finite 0
  | String c rest =>
      if isDash c then
        match rest with
        | EmptyString => NotFinite
        | _ => from_option (fun v => finiteOrNot (- v)) NotFinite
                 (digitsValue 0 rest)
        end
      else from_option finiteOrNot NotFinite (digitsValue 0 s)
  end.

(** [createQuestion] of the provider. *)
Definition createQuestion (skill : SkillKey) (level : Z)
    (settings : MathSettings) (e : Entropy) : option Question :=
  let allowNegative :=
    (if skill is sub then true else false)
    && (0 <? negativeLevel settings)
    && (negativeLevel settings <=? level) in
  generateQuestion skill level (Some (mkOptions (Some allowNegative))) e.

Definition isCorrect (value : Z) (question : Question) : bool :=
  value =? answer question.

Definition formatExpected (question : Question) : string :=
  showZ (answer question).

Record ErrorMessages := mkErrors {
  msg_empty : string;
  msg_emptyKeypad : option string;
  msg_incomplete : string;
  msg_invalid : string
}.

Definition errors : ErrorMessages :=
  {| msg_empty := "Type an answer.";
     msg_emptyKeypad := Some "Tap numbers to continue.";
     msg_incomplete := "Type a number.";
     msg_invalid := "Numbers only for now." |}.

End Provider.

(** ** [src/features/training/useTrainingSession.ts] *)

Module Session.

Import Provider.

Inductive Screen :=
  | menuScreen | drillScreen | settingsScreen | summaryScreen | statsScreen.

Inductive Mode := fixed (skill : SkillKey) | mix.

Record Feedback := mkFeedback {
  fb_correct : bool;
  fb_expected : string;
  fb_ms : Z;
  fb_skill : SkillKey;
  fb_level : Z;
  fb_timedOut : bool
}.

Record SessionCounts := mkCounts { n_correct : Z; n_wrong : Z }.

(** The state cells and refs of the hook. *)
Record HookState := mkHook {
  screen : Screen;
  stats : Stats;
  mode : Mode;
  settings : MathSettings;
  question : option Question;
  answer : string;
  feedback : option Feedback;
  error : option string;
  session : SessionCounts;
  questionIndex : Z;
  timeLeft : Z;
  answered : bool;
  startTimeRef : Z;
  advanceTimerRef : option Z;
  statsRef : Stats;
  modeRef : Mode
}.

Definition setError (e : option string) (st : HookState) : HookState :=
  mkHook (screen st) (stats st) (mode st) (settings st) (question st)
    (answer st) (feedback st) e (session st) (questionIndex st)
    (timeLeft st) (answered st) (startTimeRef st) (advanceTimerRef st)
    (statsRef st) (modeRef st).

Definition setStats (s : Stats) (st : HookState) : HookState :=
  mkHook (screen st) s (mode st) (settings st) (question st)
    (answer st) (feedback st) (error st) (session st) (questionIndex st)
    (timeLeft st) (answered st) (startTimeRef st) (advanceTimerRef st)
    (statsRef st) (modeRef st).

Definition setStatsRef (s : Stats) (st : HookState) : HookState :=
  mkHook (screen st) (stats st) (mode st) (settings st) (question st)
    (answer st) (feedback st) (error st) (session st) (questionIndex st)
    (timeLeft st) (answered st) (startTimeRef st) (advanceTimerRef st)
    s (modeRef st).

Definition setFeedback (f : option Feedback) (st : HookState) : HookState :=
  mkHook (screen st) (stats st) (mode st) (settings st) (question st)
    (answer st) f (error st) (session st) (questionIndex st)
    (timeLeft st) (answered st) (startTimeRef st) (advanceTimerRef st)
    (statsRef st) (modeRef st).

Definition setSession (f : SessionCounts -> SessionCounts) (st : HookState)
  : HookState :=
  mkHook (screen st) (stats st) (mode st) (settings st) (question st)
    (answer st) (feedback st) (error st) (f (session st))
    (questionIndex st) (timeLeft st) (answered st) (startTimeRef st)
    (advanceTimerRef st) (statsRef st) (modeRef st).

Definition setAnswered (b : bool) (st : HookState) : HookState :=
  mkHook (screen st) (stats st) (mode st) (settings st) (question st)
    (answer st) (feedback st) (error st) (session st) (questionIndex st)
    (timeLeft st) b (startTimeRef st) (advanceTimerRef st)
    (statsRef st) (modeRef st).

(** Cancelling the pending timeout leaves the ref [null]. *)
Definition clearAdvanceTimer (st : HookState) : HookState :=
  mkHook (screen st) (stats st) (mode st) (settings st) (question st)
    (answer st) (feedback st) (error st) (session st) (questionIndex st)
    (timeLeft st) (answered st) (startTimeRef st) None
    (statsRef st) (modeRef st).

(** The [allowNegativeAnswer] memo of the hook. *)
Definition allowNegativeMemo (st : HookState) : bool :=
  match question st with
  | None => false
  | Some q => allowNegativeAnswer q (settings st)
  end.

Definition isSpace (c : ascii) : bool :=
  let n := nat_of_ascii c in
  (((9 <=? n) && (n <=? 13)) || (n =? 32) || (n =? 160))%nat.

Fixpoint trimStart (s : string) : string :=
  match s with
  | EmptyString => EmptyString
  | String c rest => if isSpace c then trimStart rest else s
  end.

Fixpoint trimEnd (s : string) : string :=
  match s with
  | EmptyString => EmptyString
  | String c rest =>
      match trimEnd rest with
      | EmptyString => if isSpace c then EmptyString else String c EmptyString
      | kept => String c kept
      end
  end.

(** [s.trim()] *)
Definition trim (s : string) : string := trimEnd (trimStart s).

Definition applyResult (correct : bool) (elapsed : Z) (timedOut : bool)
    (st : HookState) : HookState :=
  match question st with
  | None => st
  | Some q =>
      let nextStats := updateStats (statsRef st) (skill q) correct elapsed in
      let st := setStatsRef nextStats st in
      let st := setStats nextStats st in
      let st :=
        setFeedback
          (Some {| fb_correct := correct;
                   fb_expected := formatExpected q;
                   fb_ms := elapsed;
                   fb_skill := skill q;
                   fb_level := qlevel q;
                   fb_timedOut := timedOut |}) st in
      let st :=
        setSession
          (fun prev =>
             {| n_correct := n_correct prev + (if correct then 1 else 0);
                n_wrong := n_wrong prev + (if correct then 0 else 1) |}) st in
      let st := setError None st in
      setAnswered true st
  end.

Record SubmitOptions := mkSubmit { useKeypad : option bool }.

Section Submit.

Variable Number : string -> JSNumber.

(** [clock] is the value of [Date.now()] at the call. *)
Definition handleSubmit (options : option SubmitOptions) (clock : Z)
    (st : HookState) : HookState :=
  match question st with
  | None => st
  | Some q =>
      if answered st then st
      else
        let prefersKeypadErrors := default false (options ≫= useKeypad) in
        let allowNegative := allowNegativeMemo st in
        let cleaned :=
          sanitizeNumericInput (trim (answer st)) allowNegative in
        match parseNumericInput Number cleaned with
        | ParseFailed empty =>
            setError
              (Some (if prefersKeypadErrors
                     then default (msg_empty errors) (msg_emptyKeypad errors)
                     else msg_empty errors)) st
        | ParseFailed incomplete => setError (Some (msg_incomplete errors)) st
        | ParseFailed invalid => setError (Some (msg_invalid errors)) st
        | Parsed value =>
            let elapsed := clock - startTimeRef st in
            let correct := isCorrect value q in
            applyResult correct elapsed false (clearAdvanceTimer st)
        end
  end.

End Submit.

Definition setScreen (v : Screen) (st : HookState) : HookState :=
  mkHook v (stats st) (mode st) (settings st) (question st) (answer st)
    (feedback st) (error st) (session st) (questionIndex st) (timeLeft st)
    (answered st) (startTimeRef st) (advanceTimerRef st) (statsRef st)
    (modeRef st).

Definition setMode (v : Mode) (st : HookState) : HookState :=
  mkHook (screen st) (stats st) v (settings st) (question st) (answer st)
    (feedback st) (error st) (session st) (questionIndex st) (timeLeft st)
    (answered st) (startTimeRef st) (advanceTimerRef st) (statsRef st)
    (modeRef st).

Definition setModeRef (v : Mode) (st : HookState) : HookState :=
  mkHook (screen st) (stats st) (mode st) (settings st) (question st) (answer
    st) (feedback st) (error st) (session st) (questionIndex st) (timeLeft
    st) (answered st) (startTimeRef st) (advanceTimerRef st) (statsRef st)
    v.

Definition setSettings (v : MathSettings) (st : HookState) : HookState :=
  mkHook (screen st) (stats st) (mode st) v (question st) (answer st) (feedback
    st) (error st) (session st) (questionIndex st) (timeLeft st) (answered
    st) (startTimeRef st) (advanceTimerRef st) (statsRef st) (modeRef st).

Definition setQuestion (v : option Question) (st : HookState) : HookState :=
  mkHook (screen st) (stats st) (mode st) (settings st) v (answer st) (feedback
    st) (error st) (session st) (questionIndex st) (timeLeft st) (answered
    st) (startTimeRef st) (advanceTimerRef st) (statsRef st) (modeRef st).

Definition setAnswer (v : string) (st : HookState) : HookState :=
  mkHook (screen st) (stats st) (mode st) (settings st) (question st) v
    (feedback st) (error st) (session st) (questionIndex st) (timeLeft st)
    (answered st) (startTimeRef st) (advanceTimerRef st) (statsRef st)
    (modeRef st).

Definition setQuestionIndex (v : Z) (st : HookState) : HookState :=
  mkHook (screen st) (stats st) (mode st) (settings st) (question st) (answer
    st) (feedback st) (error st) (session st) v (timeLeft st) (answered
    st) (startTimeRef st) (advanceTimerRef st) (statsRef st) (modeRef st).

Definition setTimeLeft (v : Z) (st : HookState) : HookState :=
  mkHook (screen st) (stats st) (mode st) (settings st) (question st) (answer
    st) (feedback st) (error st) (session st) (questionIndex st) v
    (answered st) (startTimeRef st) (advanceTimerRef st) (statsRef st)
    (modeRef st).

Definition setStartTimeRef (v : Z) (st : HookState) : HookState :=
  mkHook (screen st) (stats st) (mode st) (settings st) (question st) (answer
    st) (feedback st) (error st) (session st) (questionIndex st) (timeLeft
    st) (answered st) v (advanceTimerRef st) (statsRef st) (modeRef st).

(** [normalizeSettings] *)
Definition normalizeSettings (settings : MathSettings)
    (controls : list SettingControl) : MathSettings :=
  fold_left
    (fun next control =>
       let value := getValue control next in
       let clamped := Z.min (Z.max value (c_min control)) (c_max control) in
       if negb (value =? clamped) then setValue control next clamped
       else next)
    controls settings.




(** [clock] is the value of [Date.now()]. *)
Definition beginQuestion (nextQuestion : Question) (clock : Z)
    (st : HookState) : HookState :=
  let st := setQuestion (Some nextQuestion) st in
  let st := setAnswer "" st in
  let st := setError None st in
  let st := setFeedback None st in
  let st := setAnswered false st in
  let st := setStartTimeRef clock st in
  setTimeLeft (timeLimitSeconds (settings st)) st.

(** [createQuestion] of the hook; [pick] is the value of [Math.random()]
    that [pickSkill] consumes in mixed mode. *)
Definition createQuestion (selectedMode : Mode) (pick : Q) (e : Entropy)
    (st : HookState) : option Question :=
  let skill :=
    match selectedMode with
    | mix => pickSkill (statsRef st) pick
    | fixed k => k
    end in
  let level := level (getSkill (statsRef st) skill) in
  Provider.createQuestion skill level (settings st) e.

(** [None] when [createQuestion] throws. *)
Definition startSession (nextMode : Mode) (pick : Q) (e : Entropy)
    (clock : Z) (st : HookState) : option HookState :=
  let st := clearAdvanceTimer st in
  let st := setMode nextMode st in
  let st := setModeRef nextMode st in
  let st := setSession (fun _ => mkCounts 0 0) st in
  let st := setQuestionIndex 1 st in
  let st := setScreen drillScreen st in
  nextQuestion ← createQuestion nextMode pick e st;
  Some (beginQuestion nextQuestion clock st).

Definition goToMenu (st : HookState) : HookState :=
  let st := clearAdvanceTimer st in
  let st := setScreen menuScreen st in
  let st := setQuestion None st in
  let st := setFeedback None st in
  let st := setError None st in
  let st := setAnswer "" st in
  setAnswered false st.

Definition handleAnswerChange (rawValue : string) (st : HookState)
  : HookState :=
  let cleaned := sanitizeNumericInput rawValue (allowNegativeMemo st) in
  let st := setAnswer cleaned st in
  setError None st.

(** [s.startsWith("-")] *)
Definition startsWithDash (s : string) : bool :=
  match s with
  | String c _ => isDash c
  | EmptyString => false
  end.

(** [s.slice(1)] *)
Definition dropFirst (s : string) : string :=
  match s with
  | String _ rest => rest
  | EmptyString => EmptyString
  end.

(** [s.slice(0, -1)] *)
Fixpoint dropLast (s : string) : string :=
  match s with
  | EmptyString => EmptyString
  | String c EmptyString => EmptyString
  | String c rest => String c (dropLast rest)
  end.

Definition handleKeypadPress (key : string) (st : HookState) : HookState :=
  if answered st then st
  else
    let st := setError None st in
    if String.eqb key "CLR" then setAnswer "" st
    else if String.eqb key "DEL" then setAnswer (dropLast (answer st)) st
    else if String.eqb key "-" then
      if negb (allowNegativeMemo st) then st
      else
        let prev := answer st in
        setAnswer
          (if startsWithDash prev then dropFirst prev
           else if (String.length prev =? 0)%nat then "-"
           else if String.eqb prev "0" then "-0"
           else "-" +:+ prev) st
    else
      let prev := answer st in
      setAnswer
        (if String.eqb prev "0" then key
         else if String.eqb prev "-0" then "-" +:+ key
         else prev +:+ key) st.

(** [None] when [createQuestion] throws.  The [onSessionComplete] callback
    belongs to the caller and is left out. *)
Definition handleNext (pick : Q) (e : Entropy) (clock : Z) (st : HookState)
  : option HookState :=
  match question st with
  | None => Some st
  | Some _ =>
      if negb (answered st) then Some st
      else
        let st := clearAdvanceTimer st in
        let nextIndex := questionIndex st + 1 in
        if questionCount (settings st) <? nextIndex then
          let st := setScreen summaryScreen st in
          let st := setQuestion None st in
          Some (setAnswered false st)
        else
          let st := setQuestionIndex nextIndex st in
          nextQuestion ← createQuestion (modeRef st) pick e st;
          Some (beginQuestion nextQuestion clock st)
  end.

Definition handleTimeout (clock : Z) (st : HookState) : HookState :=
  match question st with
  | None => st
  | Some _ =>
      if answered st then st
      else
        let elapsed := clock - startTimeRef st in
        applyResult false elapsed true st
  end.

Definition resetStats (st : HookState) : HookState :=
  let fresh := createDefaultStats in
  let st := setStatsRef fresh st in
  setStats fresh st.

Definition adjustSetting (controlId : string) (delta : Z) (st : HookState)
  : HookState :=
  match List.find (fun item => String.eqb (c_id item) controlId)
          settingControls with
  | None => st
  | Some control =>
      let prev := settings st in
      let current := getValue control prev in
      let nextValue :=
        Z.min (Z.max (current + c_step control * delta) (c_min control))
              (c_max control) in
      setSettings (setValue control prev nextValue) st
  end.

(** One firing of the one-second interval.  The effect that owns the
    interval installs it only on the drill screen, with a question that is
    not answered yet; otherwise there is nothing to fire. *)
Definition tick (clock : Z) (st : HookState) : HookState :=
  match screen st, question st with
  | drillScreen, Some _ =>
      if answered st then st
      else if timeLeft st <=? 1 then setTimeLeft 0 (handleTimeout clock st)
      else setTimeLeft (timeLeft st - 1) st
  | _, _ => st
  end.

(** The effect that arms the auto-advance timer does so for a correct
    answer and for a timeout, not for a wrong answer. *)
Definition autoAdvances (st : HookState) : bool :=
  match feedback st with
  | None => false
  | Some f => fb_correct f || fb_timedOut f
  end.

End Session.

(** ** Vocabulary of the properties *)

Import MathLib.

(** A run of the engine: the results of a session, applied in order. *)
Definition applyResults (events : list (SkillKey * bool * Z)) (stats : Stats)
  : Stats :=
  fold_left (fun st ev => updateStats st ev.1.1 ev.1.2 ev.2) events stats.

Definition levelInRange (stats : Stats) (k : SkillKey) : Prop :=
  1 <= level (getSkill stats k) <= MAX_LEVEL.

(** The promotion rule in the words of the specification: three correct
    answers in a row, the last one within the target time, move the level
    up by one unless it is at the maximum, and zero the streak. *)
Definition promotion_as_specified (stats : Stats) (k : SkillKey) (ms : Z)
  : Prop :=
  let current := getSkill stats k in
  let after := getSkill (updateStats stats k true ms) k in
  3 <= streak current + 1 ->
  ms <= getTargetMs (level current) ->
  level after = Z.min (level current + 1) MAX_LEVEL /\ streak after = 0.

Definition statsAtTop : Stats :=
  setSkill createDefaultStats add (mkSkillStats MAX_LEVEL 2 0 []).

(** The demotion rule in the words of the specification. *)
Definition demotion_as_specified (stats : Stats) (k : SkillKey) (ms : Z)
  : Prop :=
  let current := getSkill stats k in
  let after := getSkill (updateStats stats k false ms) k in
  (2 <= mistakeStreak current + 1 ->
   level after = Z.max (level current - 1) 1 /\ mistakeStreak after = 0)
  /\ (mistakeStreak current + 1 = 1 -> level after = level current).

Definition statsAtBottom : Stats :=
  setSkill createDefaultStats add (mkSkillStats 1 0 1 []).

(** The entry [updateStats] computes from the current one. *)
Definition nextEntry (k : SkillKey) (current : SkillStats) (c : bool) (ms : Z)
  : SkillStats :=
  getSkill (updateStats (setSkill createDefaultStats k current) k c ms) k.

Definition statsWeakMul : Stats :=
  updateStats (updateStats createDefaultStats div false 5000) mul false 5000.

(** What the [forEach] loop has established after any prefix of the list:
    the running score is below every score seen, and either nothing was
    replaced, or the running skill is the first one seen with the running
    score. *)
Definition loopInvariant (stats : Stats) (init : SkillKey * Q)
    (seen : list SkillKey) (acc : SkillKey * Q) : Prop :=
  let score := skillScore stats in
  (acc.2 <= init.2)%Q
  /\ (forall k, k ∈ seen -> (acc.2 <= score k)%Q)
  /\ (acc = init
      \/ exists i, seen !! i = Some acc.1
                   /\ acc.2 = score acc.1
                   /\ forall j k, (j < i)%nat -> seen !! j = Some k ->
                                  (acc.2 < score k)%Q).

Section BareMinusScenario.

Import Provider Session.

(** The scenario in the words of the specification: the bare sign is turned
    down as invalid input, and nothing else happens. *)
Definition dash_rejected_as_invalid (Number : string -> JSNumber)
    (options : option SubmitOptions) (clock : Z) (st : HookState) : Prop :=
  let st' := handleSubmit Number options clock st in
  parseNumericInput Number (sanitizeNumericInput "-" false)
  = ParseFailed invalid
  /\ error st' = Some (msg_invalid errors)
  /\ answered st' = false
  /\ stats st' = stats st
  /\ session st' = session st.

(** A drill waiting for the answer to [1 + 2], negatives off, with [-]
    typed in. *)
Definition awaitingWithDash : HookState :=
  {| screen := drillScreen;
     stats := createDefaultStats;
     mode := fixed add;
     settings := DEFAULT_SETTINGS;
     question := Some (mkQuestion "add-0-0" "1 + 2" 3 add 1);
     answer := "-";
     feedback := None;
     error := None;
     session := mkCounts 0 0;
     questionIndex := 1;
     timeLeft := 10;
     answered := false;
     startTimeRef := 0;
     advanceTimerRef := None;
     statsRef := createDefaultStats;
     modeRef := fixed add |}.

End BareMinusScenario.

(** Reading a displayed question back, the way a learner does: the text up
    to the first space, the operator between two spaces, the rest. *)
Definition readZ (s : string) : option Z :=
  Z.of_int <$> NilZero.int_of_string s.

Fixpoint splitAtSpace (s : string) : string * string :=
  match s with
  | EmptyString => (EmptyString, EmptyString)
  | String c rest =>
      if Ascii.eqb c " " then (EmptyString, rest)
      else let '(word, tail) := splitAtSpace rest in (String c word, tail)
  end.

Definition readDivision (text : string) : option (Z * Z) :=
  let '(shown, tail) := splitAtSpace text in
  match tail with
  | String "/" (String " " rest) =>
      dividend ← readZ shown; divisor ← readZ rest; Some (dividend, divisor)
  | _ => None
  end.

(** The bounds of a level, with the defaults [generateQuestion] gives the
    optional ones. *)
Definition lowA (spec : LevelSpec) : Z := default 0 (minA spec).
Definition lowB (spec : LevelSpec) : Z := default 0 (minB spec).

(** A level whose ranges are not inverted and hold no negative operand. *)
Definition rangesOrdered (spec : LevelSpec) : bool :=
  (0 <=? lowA spec) && (lowA spec <=? maxA spec)
  && (0 <=? lowB spec) && (lowB spec <=? maxB spec).

(** Two levels of which the second draws from ranges at least as wide at
    the top. *)
Definition notEasier (s1 s2 : LevelSpec) : bool :=
  (maxA s1 <=? maxA s2) && (maxB s1 <=? maxB s2).

(** Every level of a table against every later one. *)
Definition neverEasier (table : list LevelSpec) : bool :=
  forallb
    (fun i =>
       forallb
         (fun j =>
            match table !! i, table !! j with
            | Some s1, Some s2 => notEasier s1 s2
            | _, _ => true
            end)
         (seq i (length table - i)))
    (seq 0 (length table)).

(** Reading any displayed question back: left operand, operator, right
    operand. *)
Definition readQuestion (text : string) : option (Z * string * Z) :=
  let '(shown, tail) := splitAtSpace text in
  match tail with
  | String op (String " " rest) =>
      x ← readZ shown; y ← readZ rest; Some (x, String op EmptyString, y)
  | _ => None
  end.

(** What the displayed operation works out to; a division counts only when
    it is exact. *)
Definition worked (k : SkillKey) (x y : Z) : option Z :=
  match k with
  | add => Some (x + y)
  | sub => Some (x - y)
  | mul => Some (x * y)
  | div => if (y =? 0) || negb (x mod y =? 0) then None else Some (x / y)
  end.

(** The two operands [generateQuestion] draws at a level. *)
Definition drawnA (spec : LevelSpec) (e : Entropy) : Z :=
  randomInt (lowA spec) (maxA spec) (randA e).
Definition drawnB (spec : LevelSpec) (e : Entropy) : Z :=
  randomInt (lowB spec) (maxB spec) (randB e).

(** Both values of [Math.random()] behind the operands are in [0, 1). *)
Definition unitDraws (e : Entropy) : Prop :=
  (0 <= randA e)%Q /\ (randA e < 1)%Q /\ (0 <= randB e)%Q /\ (randB e < 1)%Q.

(** The sum of the weights of a list of weighted skills. *)
Definition weightSum (weighted : list (SkillKey * Q)) : Q :=
  foldr (fun item acc => (item.2 + acc)%Q) 0%Q weighted.

(** What holds of every entry the engine can reach from the default
    stats. *)
Definition entryReachable (s : SkillStats) : Prop :=
  1 <= level s <= MAX_LEVEL
  /\ 0 <= streak s
  /\ 0 <= mistakeStreak s
  /\ (streak s = 0 \/ mistakeStreak s = 0)
  /\ (2 <= level s -> mistakeStreak s <= 1)
  /\ (length (history s) <= 12)%nat.

(** The results of a run that concern one skill, oldest first. *)
Definition resultsFor (k : SkillKey) (events : list (SkillKey * bool * Z))
  : list Result :=
  omap (fun ev => if decide (ev.1.1 = k)
                  then Some (mkResult ev.1.2 ev.2) else None) events.

(** Every character of a string passes a test. *)
Fixpoint allChars (p : ascii -> bool) (s : string) : bool :=
  match s with
  | EmptyString => true
  | String c rest => p c && allChars p rest
  end.

(** The digits of a string, in order. *)
Definition digitsOf (s : string) : string :=
  Provider.stripChars (fun c => negb (Provider.isDigit c)) s.

(** Digits only, after an optional minus sign when negatives are
    allowed. *)
Definition answerShape (allowNegative : bool) (s : string) : bool :=
  match s with
  | EmptyString => true
  | String c rest =>
      (Provider.isDigit c || (allowNegative && Provider.isDash c))
      && allChars Provider.isDigit rest
  end.

(** Every control reads a value within its own bounds. *)
Definition inBounds (settings : Provider.MathSettings) : Prop :=
  Forall (fun control =>
            Provider.c_min control <= Provider.getValue control settings
              <= Provider.c_max control)
         Provider.settingControls.

(** A drill on a subtraction at level 6 with negatives allowed from level
    3, nothing typed yet. *)
Definition negativeDrill : Session.HookState :=
  {| Session.screen := Session.drillScreen;
     Session.stats := createDefaultStats;
     Session.mode := Session.fixed sub;
     Session.settings := Provider.mkSettings 10 10 3;
     Session.question := Some (mkQuestion "sub-0-0" "4 - 9" (-5) sub 6);
     Session.answer := "";
     Session.feedback := None;
     Session.error := None;
     Session.session := Session.mkCounts 0 0;
     Session.questionIndex := 1;
     Session.timeLeft := 10;
     Session.answered := false;
     Session.startTimeRef := 1000;
     Session.advanceTimerRef := None;
     Session.statsRef := createDefaultStats;
     Session.modeRef := Session.fixed sub |}.

(** The session counts after one more result. *)
Definition bump (c : bool) (counts : Session.SessionCounts)
  : Session.SessionCounts :=
  {| Session.n_correct :=
       Session.n_correct counts + (if c then 1 else 0);
     Session.n_wrong := Session.n_wrong counts + (if c then 0 else 1) |}.

(** The number of questions scored so far in the session. *)
Definition scored (st : Session.HookState) : Z :=
  Session.n_correct (Session.session st)
  + Session.n_wrong (Session.session st).

(** What can happen to the hook: a call of one of the functions it
    returns, with the values of [Date.now()] and [Math.random()] the call
    reads, or a firing of the countdown interval. *)
Inductive Event :=
  | Start (m : Session.Mode) (pick : Q) (e : Entropy) (clock : Z)
  | Submit (options : option Session.SubmitOptions) (clock : Z)
  | Timeout (clock : Z)
  | Tick (clock : Z)
  | Next (pick : Q) (e : Entropy) (clock : Z)
  | Menu
  | Show (sc : Session.Screen)
  | Typed (raw : string)
  | Press (key : string)
  | Reset
  | Adjust (controlId : string) (delta : Z).

Definition step (Number : string -> Provider.JSNumber) (ev : Event)
    (st : Session.HookState) : option Session.HookState :=
  match ev with
  | Start m pick e clock => Session.startSession m pick e clock st
  | Submit options clock =>
      Some (Session.handleSubmit Number options clock st)
  | Timeout clock => Some (Session.handleTimeout clock st)
  | Tick clock => Some (Session.tick clock st)
  | Next pick e clock => Session.handleNext pick e clock st
  | Menu => Some (Session.goToMenu st)
  | Show sc => Some (Session.setScreen sc st)
  | Typed raw => Some (Session.handleAnswerChange raw st)
  | Press key => Some (Session.handleKeypadPress key st)
  | Reset => Some (Session.resetStats st)
  | Adjust controlId delta => Some (Session.adjustSetting controlId delta st)
  end.

Fixpoint run (Number : string -> Provider.JSNumber) (events : list Event)
    (st : Session.HookState) : option Session.HookState :=
  match events with
  | [] => Some st
  | ev :: rest => st' ← step Number ev st; run Number rest st'
  end.





(** A session in which every question runs out of time: the start, then
    for each round the timeout and the call of next that follows it. *)
Definition timedOutSession (m : Session.Mode) (pick : Q) (e : Entropy)
    (clock : Z) (rounds : list (Z * (Q * Entropy * Z))) : list Event :=
  Start m pick e clock
  :: flat_map (fun r => [Timeout r.1; Next r.2.1.1 r.2.1.2 r.2.2]) rounds.

(** * Properties *)

(** ** The level table *)

Lemma LEVELS_length (k : SkillKey) :
  Z.of_nat (length (LEVELS k)) = MAX_LEVEL.
Proof. destruct k; vm_compute; reflexivity. Qed.

(** ** Reading and writing one entry of [Stats] *)

Lemma getSkill_setSkill_eq stats k entry :
  getSkill (setSkill stats k entry) k = entry.
Proof. destruct k; reflexivity. Qed.

Lemma getSkill_setSkill_ne stats k k' entry :
  k <> k' -> getSkill (setSkill stats k entry) k' = getSkill stats k'.
Proof. destruct k, k'; intros Hne; try reflexivity; congruence. Qed.

(** ** [clamp] *)

Lemma clamp_bounds v lo hi : lo <= hi -> lo <= clamp v lo hi <= hi.
Proof. unfold clamp. lia. Qed.

Lemma clamp_id v lo hi : lo <= v <= hi -> clamp v lo hi = v.
Proof. unfold clamp. lia. Qed.

Lemma clamp_mono v w lo hi : v <= w -> clamp v lo hi <= clamp w lo hi.
Proof. unfold clamp. lia. Qed.

(** ** The entry [updateStats] writes, case by case *)

Section UpdatedEntry.

Variables (stats : Stats) (k : SkillKey) (ms : Z).

Let current := getSkill stats k.

Lemma updateStats_history c :
  history (getSkill (updateStats stats k c ms) k)
  = slice_last MAX_HISTORY (history current ++ [mkResult c ms]).
Proof.
  unfold updateStats. rewrite LEVELS_length.
  repeat match goal with |- context [if ?b then _ else _] =>
    destruct b end; cbn; rewrite getSkill_setSkill_eq; reflexivity.
Qed.

Lemma updateStats_promoted :
  3 <= streak current + 1 -> ms <= getTargetMs (level current) ->
  getSkill (updateStats stats k true ms) k
  = let nextLevel := clamp (level current + 1) 1 MAX_LEVEL in
    {| level := nextLevel;
       streak := if nextLevel =? level current
                 then streak current + 1 else 0;
       mistakeStreak := 0;
       history := slice_last MAX_HISTORY
                    (history current ++ [mkResult true ms]) |}.
Proof.
  intros Hs Ht. unfold updateStats. fold current. rewrite LEVELS_length.
  assert ((3 <=? streak current + 1) = true) as -> by lia.
  assert ((ms <=? getTargetMs (level current)) = true) as -> by lia.
  cbn. rewrite getSkill_setSkill_eq.
  destruct (clamp (level current + 1) 1 MAX_LEVEL =? level current);
    reflexivity.
Qed.

Lemma updateStats_not_promoted :
  streak current + 1 < 3 \/ getTargetMs (level current) < ms ->
  getSkill (updateStats stats k true ms) k
  = {| level := level current;
       streak := streak current + 1;
       mistakeStreak := 0;
       history := slice_last MAX_HISTORY
                    (history current ++ [mkResult true ms]) |}.
Proof.
  intros H. unfold updateStats. fold current.
  assert ((3 <=? streak current + 1)
          && (ms <=? getTargetMs (level current)) = false) as Hb.
  { apply andb_false_iff. lia. }
  cbn. rewrite Hb. cbn. rewrite getSkill_setSkill_eq. reflexivity.
Qed.

Lemma updateStats_demoted :
  2 <= mistakeStreak current + 1 ->
  getSkill (updateStats stats k false ms) k
  = let nextLevel := clamp (level current - 1) 1 MAX_LEVEL in
    {| level := nextLevel;
       streak := 0;
       mistakeStreak := if nextLevel =? level current
                        then mistakeStreak current + 1 else 0;
       history := slice_last MAX_HISTORY
                    (history current ++ [mkResult false ms]) |}.
Proof.
  intros Hm. unfold updateStats. fold current. rewrite LEVELS_length.
  assert ((2 <=? mistakeStreak current + 1) = true) as -> by lia.
  cbn. rewrite getSkill_setSkill_eq.
  destruct (clamp (level current - 1) 1 MAX_LEVEL =? level current);
    reflexivity.
Qed.

Lemma updateStats_not_demoted :
  mistakeStreak current + 1 < 2 ->
  getSkill (updateStats stats k false ms) k
  = {| level := level current;
       streak := 0;
       mistakeStreak := mistakeStreak current + 1;
       history := slice_last MAX_HISTORY
                    (history current ++ [mkResult false ms]) |}.
Proof.
  intros Hm. unfold updateStats. fold current.
  assert ((2 <=? mistakeStreak current + 1) = false) as -> by lia.
  cbn. rewrite getSkill_setSkill_eq. reflexivity.
Qed.

End UpdatedEntry.

(** Whatever the result, the level written is the old one or the old one
    moved by one step and clamped. *)
Lemma updateStats_level_cases stats k c ms :
  let current := getSkill stats k in
  let after := getSkill (updateStats stats k c ms) k in
  level after = level current
  \/ level after = clamp (level current + 1) 1 MAX_LEVEL
  \/ level after = clamp (level current - 1) 1 MAX_LEVEL.
Proof.
  cbn zeta. destruct c.
  - destruct (Z_lt_le_dec (streak (getSkill stats k) + 1) 3) as [H|H].
    { rewrite updateStats_not_promoted by auto. auto. }
    destruct (Z_lt_le_dec (getTargetMs (level (getSkill stats k))) ms)
      as [H'|H'].
    { rewrite updateStats_not_promoted by auto. auto. }
    rewrite updateStats_promoted by lia. auto.
  - destruct (Z_lt_le_dec (mistakeStreak (getSkill stats k) + 1) 2) as [H|H].
    { rewrite updateStats_not_demoted by auto. auto. }
    rewrite updateStats_demoted by lia. auto.
Qed.

(** Any entry other than the one updated is carried over. *)
Lemma updateStats_other stats k k' c ms :
  k <> k' -> getSkill (updateStats stats k c ms) k' = getSkill stats k'.
Proof.
  intros Hne. unfold updateStats.
  repeat match goal with |- context [if ?b then _ else _] =>
    destruct b end; cbn; apply getSkill_setSkill_ne; assumption.
Qed.

(** ** Target time *)

(** C7. [getTargetMs level] is [6000 - level * 300] clamped into
    [2400, 6000], written out with [min] and [max]; it never increases when
    the level grows, and it always lies between 2400 and 6000. *)
Theorem getTargetMs_clamped_antitone :
  (forall lv, getTargetMs lv = clamp (6000 - lv * 300) 2400 6000)
  /\ (forall lv, getTargetMs lv = Z.min (Z.max (6000 - lv * 300) 2400) 6000)
  /\ (forall l1 l2, l1 <= l2 -> getTargetMs l2 <= getTargetMs l1)
  /\ (forall lv, 2400 <= getTargetMs lv <= 6000).
Proof.
  repeat split; try reflexivity; unfold getTargetMs, clamp; lia.
Qed.

Lemma getTargetMs_antitone_witness :
  getTargetMs 12 <= getTargetMs 3.
Proof.
  apply (proj1 (proj2 (proj2 getTargetMs_clamped_antitone)) 3 12). lia.
Defined.

(** ** Promotion *)

(** C1, as stated, fails at the maximum level: a third fast correct answer
    at level 50 leaves the level at 50 and the streak at 3. *)
Lemma promotion_at_max_keeps_streak :
  ~ promotion_as_specified statsAtTop add 1000.
Proof.
  unfold promotion_as_specified. intros H.
  destruct H as [_ H]; vm_compute; try discriminate.
Qed.

(** C1 (amended). For a correct result with [streak + 1 >= 3] and an
    elapsed time within the target time of the level before the update, the
    new level is [level + 1] clamped into [1, MAX_LEVEL]; the streak is
    reset to 0 for every starting level other than [MAX_LEVEL], and at
    [MAX_LEVEL] the level stays and the streak is [streak + 1]. *)
Theorem promotion_resets_streak_on_level_change stats k ms :
  let current := getSkill stats k in
  let after := getSkill (updateStats stats k true ms) k in
  3 <= streak current + 1 ->
  ms <= getTargetMs (level current) ->
  level after = clamp (level current + 1) 1 MAX_LEVEL
  /\ (0 <= level current -> level after = Z.min (level current + 1) MAX_LEVEL)
  /\ (level current <> MAX_LEVEL ->
      level after <> level current /\ streak after = 0)
  /\ (level current = MAX_LEVEL ->
      level after = MAX_LEVEL /\ streak after = streak current + 1).
Proof.
  intros current after Hs Ht. subst after.
  rewrite updateStats_promoted by assumption. fold current. cbn.
  unfold clamp, MAX_LEVEL.
  repeat split; intros; try lia;
    destruct (Z.eqb_spec (Z.min (Z.max (level current + 1) 1) 50)
                (level current)); lia.
Qed.

Lemma promotion_witness :
  let after := getSkill (updateStats
                 (setSkill createDefaultStats mul (mkSkillStats 7 2 0 []))
                 mul true 3000) mul in
  level after = 8 /\ streak after = 0.
Proof.
  pose proof (promotion_resets_streak_on_level_change
                (setSkill createDefaultStats mul (mkSkillStats 7 2 0 []))
                mul 3000) as H.
  cbn zeta in H.
  destruct H as (Hl & _ & Hs & _).
  - vm_compute. discriminate.
  - vm_compute. discriminate.
  - split.
    + rewrite Hl. reflexivity.
    + apply Hs. vm_compute. discriminate.
Defined.

(** ** Demotion *)

(** C2, as stated, fails at level 1: a second miss in a row leaves the
    level at 1 and the mistake streak at 2. *)
Lemma demotion_at_level_one_keeps_mistakes :
  ~ demotion_as_specified statsAtBottom add 4000.
Proof.
  unfold demotion_as_specified. intros [H _].
  destruct H as [_ H]; vm_compute; try discriminate.
Qed.

(** C2 (amended). For an incorrect result with [mistakeStreak + 1 >= 2]
    the new level is [level - 1] clamped into [1, MAX_LEVEL]; the mistake
    streak is reset to 0 for every starting level other than 1, and at
    level 1 the level stays and the mistake streak is [mistakeStreak + 1].
    A single miss ([mistakeStreak + 1 = 1]) never changes the level. *)
Theorem demotion_resets_mistakes_on_level_change stats k ms :
  let current := getSkill stats k in
  let after := getSkill (updateStats stats k false ms) k in
  (2 <= mistakeStreak current + 1 ->
   level after = clamp (level current - 1) 1 MAX_LEVEL
   /\ (level current <= MAX_LEVEL + 1 ->
       level after = Z.max (level current - 1) 1)
   /\ (level current <> 1 ->
       level after <> level current /\ mistakeStreak after = 0)
   /\ (level current = 1 ->
       level after = 1 /\ mistakeStreak after = mistakeStreak current + 1))
  /\ (mistakeStreak current + 1 = 1 -> level after = level current).
Proof.
  intros current after. subst after. split.
  - intros Hm. rewrite updateStats_demoted by assumption.
    fold current. cbn. unfold clamp, MAX_LEVEL.
    repeat split; intros; try lia;
      destruct (Z.eqb_spec (Z.min (Z.max (level current - 1) 1) 50)
                  (level current)); lia.
  - intros Hm. rewrite updateStats_not_demoted by (fold current; lia).
    reflexivity.
Qed.

Lemma demotion_witness :
  let after := getSkill (updateStats
                 (setSkill createDefaultStats sub (mkSkillStats 9 0 1 []))
                 sub false 2500) sub in
  level after = 8 /\ mistakeStreak after = 0.
Proof.
  pose proof (demotion_resets_mistakes_on_level_change
                (setSkill createDefaultStats sub (mkSkillStats 9 0 1 []))
                sub 2500) as H.
  cbn zeta in H. destruct H as [H _].
  destruct H as (Hl & _ & Hs & _).
  - vm_compute. discriminate.
  - split.
    + rewrite Hl. reflexivity.
    + apply Hs. vm_compute. discriminate.
Defined.

(** ** The level stays in range *)

Lemma updateStats_levelInRange stats k k' c ms :
  levelInRange stats k' -> levelInRange (updateStats stats k c ms) k'.
Proof.
  unfold levelInRange. intros Hin.
  assert (Hdec : k = k' \/ k <> k') by (destruct k, k'; auto; right; congruence).
  destruct Hdec as [<- | Hne].
  - pose proof (updateStats_level_cases stats k c ms) as Hcases.
    cbn zeta in Hcases.
    pose proof (clamp_bounds (level (getSkill stats k) + 1) 1 MAX_LEVEL).
    pose proof (clamp_bounds (level (getSkill stats k) - 1) 1 MAX_LEVEL).
    unfold MAX_LEVEL in *. lia.
  - rewrite updateStats_other by assumption. exact Hin.
Qed.

Lemma applyResults_levelInRange events :
  forall stats, (forall k, levelInRange stats k) ->
  forall k, levelInRange (applyResults events stats) k.
Proof.
  induction events as [|[[k0 c] ms] events IH]; intros stats Hin k.
  - apply Hin.
  - cbn. apply IH. intros k1. apply updateStats_levelInRange, Hin.
Qed.

(** C3. If the level of a skill lies in [1, MAX_LEVEL], it still does after
    [updateStats] for any skill and result; hence, from the default stats,
    every level lies in [1, MAX_LEVEL] after any sequence of updates. *)
Theorem level_always_in_range :
  (forall stats k k' c ms,
     1 <= level (getSkill stats k') <= MAX_LEVEL ->
     1 <= level (getSkill (updateStats stats k c ms) k') <= MAX_LEVEL)
  /\ (forall events k,
       1 <= level (getSkill (applyResults events createDefaultStats) k)
         <= MAX_LEVEL).
Proof.
  split.
  - intros stats k k' c ms. apply updateStats_levelInRange.
  - intros events k. apply applyResults_levelInRange.
    intros k'. unfold levelInRange. destruct k'; vm_compute; split; discriminate.
Qed.

Lemma level_in_range_witness :
  1 <= level (getSkill (updateStats statsAtTop add true 1000) add)
    <= MAX_LEVEL.
Proof.
  apply (proj1 level_always_in_range statsAtTop add add true 1000).
  vm_compute. split; discriminate.
Defined.

(** ** The history window *)

Lemma slice_last_drop {A} (n : nat) (l : list A) :
  slice_last (Z.of_nat n) l = drop (length l - n) l.
Proof. unfold slice_last. f_equal. lia. Qed.

Lemma slice_last_length {A} (n : nat) (l : list A) :
  length (slice_last (Z.of_nat n) l) = (length l `min` n)%nat.
Proof. rewrite slice_last_drop, length_drop. lia. Qed.

Lemma slice_last_suffix {A} (n : nat) (l : list A) :
  take (length l - n) l ++ slice_last (Z.of_nat n) l = l.
Proof. rewrite slice_last_drop. apply take_drop. Qed.

Lemma slice_last_snoc {A} (n : nat) (l : list A) (x : A) :
  (0 < n)%nat -> last (slice_last (Z.of_nat n) (l ++ [x])) = Some x.
Proof.
  intros Hn. rewrite slice_last_drop, length_app. cbn.
  rewrite drop_app_le by lia. apply last_snoc.
Qed.

(** C4. The history written by [updateStats] is the last 12 entries of the
    old history followed by the new result: the new result is last, what is
    dropped is a prefix of the old history (its oldest entries), what is
    kept is in the old order, and the length is [min (n + 1) 12], so never
    above 12. *)
Theorem history_is_sliding_window stats k c ms :
  let old := history (getSkill stats k) in
  let new := history (getSkill (updateStats stats k c ms) k) in
  new = drop (length old + 1 - 12)%nat (old ++ [mkResult c ms])
  /\ new = drop (length old + 1 - 12)%nat old ++ [mkResult c ms]
  /\ last new = Some (mkResult c ms)
  /\ take (length old + 1 - 12)%nat old ++ new = old ++ [mkResult c ms]
  /\ length new = ((length old + 1) `min` 12)%nat
  /\ (length new <= 12)%nat.
Proof.
  cbn zeta. rewrite updateStats_history.
  change MAX_HISTORY with (Z.of_nat 12).
  set (old := history (getSkill stats k)).
  assert (Hlen : length (old ++ [mkResult c ms]) = (length old + 1)%nat)
    by (rewrite length_app; reflexivity).
  assert (Hdrop : slice_last (Z.of_nat 12) (old ++ [mkResult c ms])
                  = drop (length old + 1 - 12)%nat old ++ [mkResult c ms]).
  { rewrite slice_last_drop, Hlen. apply drop_app_le. lia. }
  repeat split.
  - rewrite slice_last_drop, Hlen. reflexivity.
  - exact Hdrop.
  - apply slice_last_snoc. lia.
  - rewrite Hdrop, app_assoc, take_drop. reflexivity.
  - rewrite slice_last_length, Hlen. reflexivity.
  - rewrite slice_last_length. lia.
Qed.

(** ** Accuracy and average time *)

Lemma correctCount_from acc (h : list Result) :
  fold_left (fun total item => total + (if correct item then 1 else 0)) h acc
  = acc + Z.of_nat (length (List.filter correct h)).
Proof.
  revert acc. induction h as [|r h IH]; intros acc; cbn.
  - lia.
  - rewrite IH. destruct (correct r); cbn [length]; lia.
Qed.

Lemma correctCount_filter (h : list Result) :
  correctCount h = Z.of_nat (length (List.filter correct h)).
Proof. unfold correctCount. rewrite correctCount_from. lia. Qed.

Lemma totalMs_from acc (h : list Result) :
  fold_left (fun sum item => sum + ms item) h acc
  = acc + foldr Z.add 0 (ms <$> h).
Proof.
  revert acc. induction h as [|r h IH]; intros acc; cbn.
  - lia.
  - rewrite IH. lia.
Qed.

Lemma correctCount_bounds (h : list Result) :
  0 <= correctCount h <= Z.of_nat (length h).
Proof.
  rewrite correctCount_filter.
  pose proof (List.filter_length_le correct h). lia.
Qed.

(** C9. On an empty history [getAccuracy] and [getAverageMs] are 0; on a
    non-empty one they are the number of correct entries over the length
    and the sum of the elapsed times over the length; on
    [correct(1000ms), wrong(2000ms)] they are 0.5 and 1500. *)
Theorem accuracy_and_average :
  (forall s, history s = [] -> getAccuracy s = 0%Q /\ getAverageMs s = 0%Q)
  /\ (forall s, history s <> [] ->
       getAccuracy s
       = (inject_Z (Z.of_nat (length (List.filter correct (history s))))
          / inject_Z (Z.of_nat (length (history s))))%Q
       /\ getAverageMs s
          = (inject_Z (foldr Z.add 0%Z (ms <$> history s))
             / inject_Z (Z.of_nat (length (history s))))%Q)
  /\ (forall lv st mst,
       let s := mkSkillStats lv st mst
                  [mkResult true 1000; mkResult false 2000] in
       (getAccuracy s == 0.5)%Q /\ (getAverageMs s == 1500)%Q).
Proof.
  split; [|split].
  - intros s Hs. unfold getAccuracy, accuracyFromHistory, getAverageMs.
    rewrite Hs. split; reflexivity.
  - intros s Hs. unfold getAccuracy, accuracyFromHistory, getAverageMs.
    destruct (history s) as [|r h] eqn:Hh; [congruence|].
    cbn [length Nat.eqb]. split.
    + rewrite correctCount_filter. reflexivity.
    + rewrite totalMs_from. reflexivity.
  - intros lv st mst. split; vm_compute; reflexivity.
Qed.

Lemma accuracy_and_average_witness :
  (getAccuracy (mkSkillStats 1 0 0 []) = 0%Q
   /\ getAverageMs (mkSkillStats 1 0 0 []) = 0%Q)
  /\ (getAccuracy (mkSkillStats 4 1 0 [mkResult false 900; mkResult true 700;
                                       mkResult true 800])
       == 2 # 3)%Q.
Proof.
  split.
  - apply (proj1 accuracy_and_average (mkSkillStats 1 0 0 [])). reflexivity.
  - rewrite (proj1 (proj1 (proj2 accuracy_and_average)
               (mkSkillStats 4 1 0 [mkResult false 900; mkResult true 700;
                                    mkResult true 800])
               ltac:(discriminate))).
    vm_compute. reflexivity.
Defined.

(** ** Division questions *)

Lemma getLevelSpec_total k lv : is_Some (getLevelSpec k lv).
Proof.
  unfold getLevelSpec. apply lookup_lt_is_Some.
  pose proof (LEVELS_length k) as Hlen. unfold MAX_LEVEL in Hlen.
  pose proof (clamp_bounds (lv - 1) 0 (Z.of_nat (length (LEVELS k)) - 1)).
  lia.
Qed.

(** A draw stays within its bounds when [Math.random()] is in [0, 1). *)
Lemma randomInt_range lo hi (r : Q) :
  lo <= hi -> (0 <= r)%Q -> (r < 1)%Q -> lo <= randomInt lo hi r <= hi.
Proof.
  intros Hle H0 H1. unfold randomInt.
  set (n := hi - lo + 1).
  assert (Hn : (0 < inject_Z n)%Q).
  { change 0%Q with (inject_Z 0). rewrite <- Zlt_Qlt. lia. }
  assert (Hlow : 0 <= Qfloor (r * inject_Z n)).
  { change 0 with (Qfloor 0) at 1. apply Qfloor_resp_le.
    apply Qmult_le_0_compat; [assumption | apply Qlt_le_weak, Hn]. }
  assert (Hhigh : Qfloor (r * inject_Z n) < n).
  { rewrite Zlt_Qlt. eapply Qle_lt_trans; [apply Qfloor_le|].
    rewrite <- (Qmult_1_l (inject_Z n)) at 2.
    apply Qmult_lt_compat_r; assumption. }
  lia.
Qed.

Lemma readZ_showZ (n : Z) : readZ (showZ n) = Some n.
Proof.
  unfold readZ, showZ. rewrite NilZero.isi.
  - cbn. f_equal. apply DecimalZ.of_to.
  - destruct n; cbn; try discriminate.
    intros [= H]. exact (Unsigned.to_uint_nonnil _ H).
  - destruct n; cbn; try discriminate.
    intros [= H]. exact (Unsigned.to_uint_nonnil _ H).
Qed.

Lemma append_cons (c : ascii) (s t : string) :
  String c s +:+ t = String c (s +:+ t).
Proof. reflexivity. Qed.

Lemma splitAtSpace_digits (d : Decimal.uint) (rest : string) :
  splitAtSpace (NilEmpty.string_of_uint d +:+ String " " rest)
  = (NilEmpty.string_of_uint d, rest).
Proof.
  induction d; cbn [NilEmpty.string_of_uint]; rewrite ?append_cons;
    cbn [splitAtSpace]; try rewrite IHd; reflexivity.
Qed.

Lemma splitAtSpace_nonempty (d : Decimal.uint) (rest : string) :
  splitAtSpace (NilZero.string_of_uint d +:+ String " " rest)
  = (NilZero.string_of_uint d, rest).
Proof.
  destruct d; [reflexivity | ..];
    match goal with
    | |- context [NilZero.string_of_uint ?u] =>
        exact (splitAtSpace_digits u rest)
    end.
Qed.

Lemma splitAtSpace_showZ (n : Z) (rest : string) :
  splitAtSpace (showZ n +:+ String " " rest) = (showZ n, rest).
Proof.
  unfold showZ.
  destruct (Z.to_int n) as [d|d]; unfold NilZero.string_of_int.
  - apply splitAtSpace_nonempty.
  - rewrite append_cons. cbn [splitAtSpace].
    change (Ascii.eqb "-" " ") with false. cbv iota.
    rewrite splitAtSpace_nonempty. reflexivity.
Qed.

Lemma readDivision_show (a b : Z) :
  readDivision (showZ a +:+ " / " +:+ showZ b) = Some (a, b).
Proof.
  unfold readDivision.
  change (showZ a +:+ " / " +:+ showZ b)
    with (showZ a +:+ String " " ("/ " +:+ showZ b)).
  rewrite splitAtSpace_showZ.
  change ("/ " +:+ showZ b) with (String "/" (String " " (showZ b))).
  cbv iota. rewrite !readZ_showZ. reflexivity.
Qed.

(** C6. At every level and for every draw, the division question has
    divisor [max(1, a)], which is not zero, answer [b], and shows the
    dividend [divisor * answer] over the divisor; the dividend divided by
    the divisor is the answer, with remainder zero, and the two numbers read
    back from the text are that dividend and that divisor. *)
Theorem division_question_exact level options e :
  exists spec q,
    getLevelSpec div level = Some spec
    /\ generateQuestion div level options e = Some q
    /\ let a := randomInt (default 0 (minA spec)) (maxA spec) (randA e) in
       let b := randomInt (default 0 (minB spec)) (maxB spec) (randB e) in
       let divisor := Z.max 1 a in
       let dividend := divisor * answer q in
       divisor <> 0
       /\ answer q = b
       /\ text q = showZ dividend +:+ " / " +:+ showZ divisor
       /\ readDivision (text q) = Some (dividend, divisor)
       /\ dividend / divisor = answer q
       /\ dividend mod divisor = 0
       /\ Z.quot dividend divisor = answer q
       /\ Z.rem dividend divisor = 0.
Proof.
  destruct (getLevelSpec_total div level) as [spec Hspec].
  exists spec. eexists. split; [exact Hspec|].
  split.
  - unfold generateQuestion. rewrite Hspec. cbn. reflexivity.
  - cbn.
    set (a := randomInt (default 0 (minA spec)) (maxA spec) (randA e)).
    set (b := randomInt (default 0 (minB spec)) (maxB spec) (randB e)).
    assert (Hd : Z.max 1 a <> 0) by lia.
    repeat split.
    + exact Hd.
    + apply readDivision_show.
    + rewrite Z.mul_comm. apply Z.div_mul, Hd.
    + rewrite Z.mul_comm. apply Z.mod_mul, Hd.
    + rewrite Z.mul_comm. apply Z.quot_mul, Hd.
    + rewrite Z.mul_comm. apply Z.rem_mul, Hd.
Qed.

(** ** The weakest skill *)

Lemma Qltb_lt (x y : Q) : Qltb x y = true <-> (x < y)%Q.
Proof.
  unfold Qltb. rewrite negb_true_iff. split.
  - intros Hb. apply Qnot_le_lt. intros Hle.
    apply Qle_bool_iff in Hle. congruence.
  - intros Hlt. destruct (Qle_bool y x) eqn:Hb; [|reflexivity].
    apply Qle_bool_iff in Hb. lra.
Qed.

Lemma Qltb_ge (x y : Q) : Qltb x y = false <-> (y <= x)%Q.
Proof.
  unfold Qltb. rewrite negb_false_iff. apply Qle_bool_iff.
Qed.

Lemma accuracyFromHistory_le_1 (h : list Result) :
  (accuracyFromHistory h <= 1)%Q.
Proof.
  unfold accuracyFromHistory. destruct h as [|r h]; cbn [length Nat.eqb].
  - lra.
  - pose proof (correctCount_bounds (r :: h)) as [_ Hle].
    apply Qle_shift_div_r.
    + change 0%Q with (inject_Z 0). rewrite <- Zlt_Qlt. cbn [length]. lia.
    + rewrite Qmult_1_l, <- Zle_Qle. exact Hle.
Qed.

Lemma skillScore_le_1 stats k : (skillScore stats k <= 1)%Q.
Proof.
  unfold skillScore.
  destruct (length (history (getSkill stats k)) =? 0)%nat.
  - lra.
  - apply accuracyFromHistory_le_1.
Qed.

Lemma all_skills_listed (k : SkillKey) : k ∈ SKILL_LIST.
Proof. unfold SKILL_LIST. destruct k; set_solver. Qed.

Section WeakestLoop.

Variable stats : Stats.

Lemma weakest_loop init (l : list SkillKey) :
  (forall k, k ∈ l -> (skillScore stats k <= init.2)%Q) ->
  loopInvariant stats init l (fold_left (weakestStep stats) l init).
Proof.
  induction l as [|x l IH] using rev_ind; intros Hbound;
    unfold loopInvariant in *; cbn zeta in *.
  - cbn [fold_left]. split; [apply Qle_refl|]. split; [|left; reflexivity].
    intros k Hk. inversion Hk.
  - rewrite fold_left_app. cbn [fold_left].
    set (acc := fold_left (weakestStep stats) l init) in *.
    destruct IH as (Hle & Hmin & Hfirst).
    { intros k Hk. apply Hbound, elem_of_app. auto. }
    unfold weakestStep.
    destruct (Qltb (skillScore stats x) acc.2) eqn:Hlt.
    + apply Qltb_lt in Hlt. cbn [fst snd].
      split; [lra|]. split.
      * intros k [Hk | ->%list_elem_of_singleton]%elem_of_app; [|lra].
        specialize (Hmin k Hk). lra.
      * right. exists (length l). cbn [fst snd].
        split; [apply list_lookup_middle; reflexivity|].
        split; [reflexivity|].
        intros j k Hj Hjk. rewrite lookup_app_l in Hjk by assumption.
        assert (Hk : k ∈ l) by (apply list_elem_of_lookup; eauto).
        specialize (Hmin k Hk). lra.
    + apply Qltb_ge in Hlt.
      split; [assumption|]. split.
      * intros k [Hk | ->%list_elem_of_singleton]%elem_of_app;
          [apply Hmin, Hk | assumption].
      * destruct Hfirst as [Heq | (i & Hi & Hs & Hbefore)]; [left; assumption|].
        right. exists i.
        assert (Hil : (i < length l)%nat) by (eapply lookup_lt_Some, Hi).
        split; [rewrite lookup_app_l; assumption|].
        split; [assumption|].
        intros j k Hj Hjk. rewrite lookup_app_l in Hjk by lia.
        eapply Hbefore; eassumption.
Qed.

End WeakestLoop.

(** C8. The score of a skill is 0.55 on an empty history and its accuracy
    otherwise; [getWeakestSkill] returns a skill whose score is the least
    of all, and every skill listed before it has a strictly greater score,
    so among the skills with the least score the first listed is
    returned. *)
Theorem weakest_skill_first_minimum stats :
  let w := getWeakestSkill stats in
  (forall k, skillScore stats k
             = match history (getSkill stats k) with
               | [] => 0.55%Q
               | _ :: _ => getAccuracy (getSkill stats k)
               end)
  /\ (forall k, (skillScore stats w <= skillScore stats k)%Q)
  /\ exists i, SKILL_LIST !! i = Some w
               /\ forall j k, (j < i)%nat -> SKILL_LIST !! j = Some k ->
                              (skillScore stats w < skillScore stats k)%Q.
Proof.
  cbn zeta. split.
  { intros k. unfold skillScore, getAccuracy.
    destruct (history (getSkill stats k)); reflexivity. }
  unfold getWeakestSkill.
  change (default add (SKILL_LIST !! 0%nat)) with add.
  destruct (weakest_loop stats (add, 1%Q) SKILL_LIST) as (Hle & Hmin & Hfirst).
  { intros k _. apply skillScore_le_1. }
  unfold loopInvariant in *; cbn zeta in *.
  set (acc := fold_left (weakestStep stats) SKILL_LIST (add, 1%Q)) in *.
  destruct Hfirst as [Heq | (i & Hi & Hs & Hbefore)].
  - rewrite Heq in *. cbn [fst snd] in *. split.
    + intros k. pose proof (Hmin k (all_skills_listed k)).
      pose proof (skillScore_le_1 stats add). lra.
    + exists 0%nat. split; [reflexivity|]. intros j k Hj. lia.
  - rewrite Hs in *. split.
    + intros k. apply Hmin, all_skills_listed.
    + exists i. split; [exact Hi|exact Hbefore].
Qed.

Lemma weakest_skill_witness :
  (skillScore statsWeakMul (getWeakestSkill statsWeakMul)
   < skillScore statsWeakMul add)%Q.
Proof.
  destruct (weakest_skill_first_minimum statsWeakMul)
    as (_ & _ & i & Hi & Hbefore).
  apply (Hbefore 0%nat add).
  - destruct i as [|i]; [vm_compute in Hi; discriminate | lia].
  - reflexivity.
Defined.

(** ** [updateStats] writes one entry and touches no existing object *)

Lemma updateStats_setSkill stats k c ms :
  updateStats stats k c ms
  = setSkill stats k (nextEntry k (getSkill stats k) c ms).
Proof.
  unfold nextEntry, updateStats. rewrite !getSkill_setSkill_eq.
  repeat match goal with |- context [if ?b then _ else _] =>
    destruct b end; cbn; rewrite getSkill_setSkill_eq; reflexivity.
Qed.

Module StoreFacts.

Import Store.

Lemma alloc_fresh o (h : store) : h !! (alloc o h).1 = None.
Proof. cbn. apply not_elem_of_dom, is_fresh. Qed.

Lemma alloc_lookup o (h : store) : (alloc o h).2 !! (alloc o h).1 = Some o.
Proof. cbn. apply lookup_insert_eq. Qed.

Lemma alloc_subseteq o (h : store) : h ⊆ (alloc o h).2.
Proof. cbn. apply insert_subseteq, (alloc_fresh o h). Qed.

Lemma readArray_weaken (h h' : store) l items :
  h ⊆ h' -> readArray h l = Some items -> readArray h' l = Some items.
Proof.
  intros Hsub. unfold readArray.
  destruct (h !! l) as [o|] eqn:Hl; [|discriminate].
  rewrite (lookup_weaken _ _ _ _ Hl Hsub). trivial.
Qed.

Lemma skillAt_elim (h : store) l s :
  skillAt h l = Some s ->
  exists hist,
    h !! l = Some (SkillObj (level s) (streak s) (mistakeStreak s) hist)
    /\ readArray h hist = Some (history s).
Proof.
  unfold skillAt. destruct (h !! l) as [[| lv st mst hist |]|]; cbn;
    try discriminate.
  destruct (readArray h hist) as [items|] eqn:Hr; cbn; [|discriminate].
  intros [= <-]. exists hist. split; [reflexivity | exact Hr].
Qed.

Lemma skillAt_intro (h : store) l s hist :
  h !! l = Some (SkillObj (level s) (streak s) (mistakeStreak s) hist) ->
  readArray h hist = Some (history s) ->
  skillAt h l = Some s.
Proof.
  intros Hl Hr. unfold skillAt. rewrite Hl. cbn. rewrite Hr.
  destruct s; reflexivity.
Qed.

Lemma skillAt_weaken (h h' : store) l s :
  h ⊆ h' -> skillAt h l = Some s -> skillAt h' l = Some s.
Proof.
  intros Hsub (hist & Hl & Hr)%skillAt_elim.
  eapply skillAt_intro.
  - eapply lookup_weaken; eassumption.
  - eapply readArray_weaken; eassumption.
Qed.

Lemma statsAt_elim (h : store) p stats :
  statsAt h p = Some stats ->
  exists o, h !! p = Some o
    /\ forall k, exists l,
         fieldOf k o = Some l /\ skillAt h l = Some (getSkill stats k).
Proof.
  unfold statsAt. destruct (h !! p) as [[| | a s m d]|]; cbn;
    try discriminate.
  destruct (skillAt h a) as [sa|] eqn:Ha; cbn; [|discriminate].
  destruct (skillAt h s) as [ss|] eqn:Hs; cbn; [|discriminate].
  destruct (skillAt h m) as [sm|] eqn:Hm; cbn; [|discriminate].
  destruct (skillAt h d) as [sd|] eqn:Hd; cbn; [|discriminate].
  intros [= <-]. eexists. split; [reflexivity|].
  intros [ | | | ]; eexists; (split; [reflexivity|]); assumption.
Qed.

Lemma statsAt_intro (h : store) p o stats :
  h !! p = Some o ->
  (forall k, exists l,
     fieldOf k o = Some l /\ skillAt h l = Some (getSkill stats k)) ->
  statsAt h p = Some stats.
Proof.
  intros Hp Hall. unfold statsAt. rewrite Hp. cbn.
  destruct (Hall add) as (la & Hfa & Ha).
  destruct (Hall sub) as (ls & Hfs & Hs).
  destruct (Hall mul) as (lm & Hfm & Hm).
  destruct (Hall div) as (ld & Hfd & Hd).
  destruct o as [| | a s m d]; try discriminate.
  cbn in Hfa, Hfs, Hfm, Hfd.
  injection Hfa as ->. injection Hfs as ->.
  injection Hfm as ->. injection Hfd as ->.
  rewrite Ha, Hs, Hm, Hd. cbn. destruct stats; reflexivity.
Qed.

Lemma statsAt_weaken (h h' : store) p stats :
  h ⊆ h' -> statsAt h p = Some stats -> statsAt h' p = Some stats.
Proof.
  intros Hsub (o & Hp & Hall)%statsAt_elim.
  eapply statsAt_intro.
  - eapply lookup_weaken; eassumption.
  - intros k. destruct (Hall k) as (l & Hf & Hl).
    exists l. split; [assumption|]. eapply skillAt_weaken; eassumption.
Qed.

Lemma fieldOf_spreadWith k l o :
  is_Some (fieldOf k o) ->
  exists o', spreadWith k l o = Some o'
    /\ fieldOf k o' = Some l
    /\ forall k', k' <> k -> fieldOf k' o' = fieldOf k' o.
Proof.
  destruct o as [| | a s m d]; intros [x Hx]; try discriminate.
  destruct k; eexists; (split; [reflexivity|]); (split; [reflexivity|]);
    intros [ | | | ] Hne; try reflexivity; congruence.
Qed.

(** The store version, once the three reads have succeeded: three
    allocations, holding the entry the pure version computes. *)
Lemma updateStats_steps (h : store) p o cur lv st mst hist items k c ms :
  h !! p = Some o ->
  fieldOf k o = Some cur ->
  h !! cur = Some (SkillObj lv st mst hist) ->
  readArray h hist = Some items ->
  Store.updateStats h p k c ms
  = let entry := nextEntry k (mkSkillStats lv st mst items) c ms in
    let a1 := alloc (ArrayObj (history entry)) h in
    let a2 := alloc (SkillObj (level entry) (streak entry)
                       (mistakeStreak entry) a1.1) a1.2 in
    result ← spreadWith k a2.1 o; Some (alloc result a2.2).
Proof.
  intros Hp Hf Hcur Hr. unfold Store.updateStats.
  rewrite Hp. cbn [mbind option_bind]. rewrite Hf. cbn [mbind option_bind].
  rewrite Hcur. cbn [mbind option_bind]. rewrite Hr. cbn [mbind option_bind].
  unfold nextEntry, MathLib.updateStats. rewrite !getSkill_setSkill_eq.
  cbn [level streak mistakeStreak history].
  repeat match goal with |- context [if ?b then _ else _] =>
    destruct b end; cbn; rewrite getSkill_setSkill_eq; reflexivity.
Qed.

End StoreFacts.

(** C10. The stats returned by [updateStats] hold, for every skill other
    than the updated one, exactly the previous entry.  On the object store
    the call succeeds on any well-formed [Stats] object, returns a new
    object that stands for the pure result and shares the other three
    [SkillStats] objects with the input, and leaves every object of the
    store, the input [Stats] among them, as it was. *)
Theorem updateStats_frame :
  (forall stats k k' c ms,
     k' <> k -> getSkill (updateStats stats k c ms) k' = getSkill stats k')
  /\ (forall (h : Store.store) p stats k c ms,
       Store.statsAt h p = Some stats ->
       exists p' h',
         Store.updateStats h p k c ms = Some (p', h')
         /\ Store.statsAt h' p' = Some (updateStats stats k c ms)
         /\ (forall l o, h !! l = Some o -> h' !! l = Some o)
         /\ Store.statsAt h' p = Some stats
         /\ h !! p' = None
         /\ forall k', k' <> k ->
              h' !! p' ≫= Store.fieldOf k' = h !! p ≫= Store.fieldOf k').
Proof.
  split.
  { intros stats k k' c ms Hne. apply updateStats_other. congruence. }
  intros h p stats k c ms Hstats.
  destruct (StoreFacts.statsAt_elim _ _ _ Hstats) as (o & Hp & Hall).
  destruct (Hall k) as (cur & Hf & Hcur).
  destruct (StoreFacts.skillAt_elim _ _ _ Hcur) as (hist & Hl & Hr).
  rewrite (StoreFacts.updateStats_steps h p o cur _ _ _ hist _ k c ms
             Hp Hf Hl Hr).
  replace (mkSkillStats (level (getSkill stats k)) (streak (getSkill stats k))
             (mistakeStreak (getSkill stats k)) (history (getSkill stats k)))
    with (getSkill stats k) by (destruct (getSkill stats k); reflexivity).
  cbn zeta.
  set (entry := nextEntry k (getSkill stats k) c ms).
  set (a1 := Store.alloc (Store.ArrayObj (history entry)) h).
  set (a2 := Store.alloc (Store.SkillObj (level entry) (streak entry)
                            (mistakeStreak entry) a1.1) a1.2).
  destruct (StoreFacts.fieldOf_spreadWith k a2.1 o) as (o' & Hsp & Hfk & Hfo).
  { rewrite Hf. eauto. }
  rewrite Hsp. cbn [mbind option_bind].
  set (a3 := Store.alloc o' a2.2).
  exists a3.1, a3.2.
  assert (H01 : h ⊆ a1.2) by apply StoreFacts.alloc_subseteq.
  assert (H12 : a1.2 ⊆ a2.2) by apply StoreFacts.alloc_subseteq.
  assert (H23 : a2.2 ⊆ a3.2) by apply StoreFacts.alloc_subseteq.
  assert (H03 : h ⊆ a3.2) by (etrans; [exact H01 | etrans; eassumption]).
  assert (Hnew : a3.2 !! a3.1 = Some o') by apply StoreFacts.alloc_lookup.
  split; [destruct a3; reflexivity|].
  split; [|split; [|split; [|split]]].
  - eapply StoreFacts.statsAt_intro; [exact Hnew|].
    intros k0. destruct (decide (k0 = k)) as [-> | Hne].
    + exists a2.1. split; [exact Hfk|].
      rewrite updateStats_setSkill, getSkill_setSkill_eq. fold entry.
      eapply StoreFacts.skillAt_intro.
      * eapply lookup_weaken; [apply StoreFacts.alloc_lookup | exact H23].
      * apply (StoreFacts.readArray_weaken a1.2 a3.2);
          [etrans; [exact H12 | exact H23] |].
        unfold Store.readArray. subst a1.
        rewrite StoreFacts.alloc_lookup. reflexivity.
    + destruct (Hall k0) as (l0 & Hf0 & Hl0). exists l0.
      split; [rewrite Hfo by assumption; exact Hf0|].
      rewrite updateStats_other by congruence.
      eapply StoreFacts.skillAt_weaken; eassumption.
  - intros l x Hx. eapply lookup_weaken; eassumption.
  - eapply StoreFacts.statsAt_weaken; eassumption.
  - destruct (h !! a3.1) as [x|] eqn:Hx; [|reflexivity].
    pose proof (lookup_weaken _ _ _ _ Hx (transitivity H01 H12)) as Hx2.
    pose proof (StoreFacts.alloc_fresh o' a2.2) as Hfresh.
    fold a3 in Hfresh. congruence.
  - intros k' Hne. rewrite Hnew, Hp. cbn. apply Hfo, Hne.
Qed.

Lemma updateStats_frame_witness :
  getSkill (updateStats createDefaultStats mul true 100) div
  = getSkill createDefaultStats div
  /\ exists p' h',
       Store.updateStats Store.defaultStore 9%positive mul true 100
       = Some (p', h')
       /\ Store.statsAt h' 9%positive = Some createDefaultStats.
Proof.
  split.
  - apply (proj1 updateStats_frame). discriminate.
  - destruct (proj2 updateStats_frame Store.defaultStore 9%positive
                createDefaultStats mul true 100)
      as (p' & h' & Hrun & _ & _ & Hsame & _).
    + vm_compute. reflexivity.
    + exists p', h'. split; assumption.
Defined.

(** ** Submitting a bare minus sign *)

Section BareMinus.

Import Provider Session.

(** C5, as stated, fails: with negatives off the sanitizer removes the
    sign, and what is parsed is the empty string, reported as empty. *)
Lemma dash_is_not_reported_invalid :
  ~ dash_rejected_as_invalid NumberOfDigits None 2500 awaitingWithDash.
Proof.
  unfold dash_rejected_as_invalid. intros [H _].
  vm_compute in H. discriminate.
Qed.

(** C5 (amended). With negative answers off, submitting [-] is rejected as
    empty input: the sanitizer yields the empty string, the parser reports
    [empty], and the message shown is the one for empty input (the keypad
    variant when the keypad is in use), which is not the one for invalid
    input.  The submission changes nothing but the error message: the
    question is still awaiting its answer, no result reaches the stats,
    the session counts, the feedback, the countdown and the timers are as
    before. *)
Theorem dash_without_negatives_rejected_as_empty
    (Number : string -> JSNumber) (options : option SubmitOptions)
    (clock : Z) (st : HookState) (q : Question) :
  question st = Some q ->
  answered st = false ->
  allowNegativeMemo st = false ->
  answer st = "-" ->
  let st' := handleSubmit Number options clock st in
  sanitizeNumericInput (trim (answer st)) (allowNegativeMemo st) = ""
  /\ parseNumericInput Number "" = ParseFailed empty
  /\ st' = setError
             (Some (if default false (options ≫= useKeypad)
                    then "Tap numbers to continue." else "Type an answer."))
             st
  /\ error st' <> Some (msg_invalid errors)
  /\ error st' <> Some (msg_incomplete errors)
  /\ question st' = Some q
  /\ answered st' = false
  /\ stats st' = stats st
  /\ statsRef st' = statsRef st
  /\ session st' = session st
  /\ feedback st' = feedback st
  /\ timeLeft st' = timeLeft st
  /\ startTimeRef st' = startTimeRef st
  /\ advanceTimerRef st' = advanceTimerRef st.
Proof.
  intros Hq Ha Hneg Htext st'.
  assert (Hclean : sanitizeNumericInput (trim (answer st))
                     (allowNegativeMemo st) = "")
    by (rewrite Htext, Hneg; reflexivity).
  assert (Hrun : st' = setError
             (Some (if default false (options ≫= useKeypad)
                    then "Tap numbers to continue." else "Type an answer."))
             st).
  { subst st'. unfold handleSubmit. rewrite Hq, Ha, Hclean. reflexivity. }
  split; [exact Hclean|]. split; [reflexivity|]. split; [exact Hrun|].
  rewrite Hrun. cbn.
  repeat split; try assumption;
    destruct (default false (options ≫= useKeypad)); discriminate.
Qed.

Lemma dash_rejected_witness :
  let st' := handleSubmit NumberOfDigits None 2500 awaitingWithDash in
  error st' = Some "Type an answer."
  /\ answered st' = false
  /\ stats st' = createDefaultStats
  /\ session st' = mkCounts 0 0.
Proof.
  destruct (dash_without_negatives_rejected_as_empty NumberOfDigits None 2500
              awaitingWithDash (mkQuestion "add-0-0" "1 + 2" 3 add 1))
    as (_ & _ & Hrun & _ & _ & _ & Ha & Hs & _ & Hc & _);
    try reflexivity.
  cbn zeta. rewrite Hrun at 1. cbn zeta in Ha, Hs, Hc.
  repeat split; assumption.
Defined.

End BareMinus.

(** * Further properties *)

(** ** Building the level tables *)

Lemma linearLoop_length fuel i current step :
  Z.of_nat fuel = MAX_LEVEL - i ->
  length (linearLoop fuel i current step) = fuel.
Proof.
  revert i current. induction fuel as [|fuel IH]; intros i current Hi.
  - reflexivity.
  - cbn [linearLoop]. assert ((i <? MAX_LEVEL) = true) as -> by lia.
    cbn [length]. f_equal. apply IH. lia.
Qed.

Lemma linearLoop_lookup fuel i current step (j : nat) :
  Z.of_nat fuel = MAX_LEVEL - i -> (j < fuel)%nat ->
  linearLoop fuel i current step !! j
  = Some (linearSpec (current + (Z.of_nat j + 1) * step)).
Proof.
  revert i current j. induction fuel as [|fuel IH]; intros i current j Hi Hj.
  - lia.
  - cbn [linearLoop]. assert ((i <? MAX_LEVEL) = true) as -> by lia.
    destruct j as [|j].
    + cbn. do 2 f_equal. lia.
    + cbn [lookup list_lookup]. change (?l !! j) with (lookup j l).
      rewrite (IH (i + 1) (current + step) j) by lia.
      do 2 f_equal. lia.
Qed.

(** X1. [buildLinearLevels] returns no level for an empty base and exactly
    [MAX_LEVEL] levels for any other base; the authored levels come first (a
    base longer than [MAX_LEVEL] is cut), and level [j] past the [n]
    authored ones has both maxima at the last authored maximum plus
    [(j - n + 1)] steps. *)
Theorem buildLinearLevels_shape (base : list Z) (step : Z) :
  (base = [] -> buildLinearLevels base step = [])
  /\ (base <> [] ->
      Z.of_nat (length (buildLinearLevels base step)) = MAX_LEVEL)
  /\ (forall (j : nat) m, (j < 50)%nat -> base !! j = Some m ->
        buildLinearLevels base step !! j = Some (linearSpec m))
  /\ (forall (j : nat) final,
        last base = Some final -> (length base <= j < 50)%nat ->
        buildLinearLevels base step !! j
        = Some (linearSpec
                  (final + (Z.of_nat j - Z.of_nat (length base) + 1) * step))).
Proof.
  unfold buildLinearLevels, slice_prefix.
  change (Z.to_nat MAX_LEVEL) with 50%nat.
  set (levels := linearSpec <$> take 50 base).
  assert (Hlen : length levels = (length base `min` 50)%nat).
  { subst levels. rewrite length_fmap, length_take. lia. }
  split; [|split; [|split]].
  - intros ->. reflexivity.
  - intros Hne. destruct (last levels) as [final|] eqn:Hlast.
    + rewrite length_app, linearLoop_length by (unfold MAX_LEVEL; lia).
      unfold MAX_LEVEL. lia.
    + apply last_None in Hlast. rewrite Hlast in Hlen.
      destruct base; [congruence | cbn in Hlen; lia].
  - intros j m Hj Hm.
    assert (Hlv : levels !! j = Some (linearSpec m)).
    { subst levels. rewrite list_lookup_fmap, lookup_take_lt by lia.
      rewrite Hm. reflexivity. }
    destruct (last levels); [|exact Hlv].
    rewrite lookup_app_l; [exact Hlv|]. eapply lookup_lt_Some, Hlv.
  - intros j final Hfinal [Hlo Hhi].
    assert (Hn : length levels = length base) by lia.
    assert (Htake : take 50 base = base) by (apply take_ge; lia).
    assert (Hlast : last levels = Some (linearSpec final)).
    { subst levels. rewrite Htake, fmap_last, Hfinal. reflexivity. }
    rewrite Hlast, lookup_app_r by lia.
    rewrite linearLoop_lookup by (unfold MAX_LEVEL; lia).
    cbn [maxA linearSpec].
    replace (Z.of_nat (j - length levels))
      with (Z.of_nat j - Z.of_nat (length base)) by lia.
    reflexivity.
Qed.

Lemma buildLinearLevels_shape_witness :
  buildLinearLevels [10; 20] 7 !! 4%nat = Some (linearSpec 41).
Proof.
  apply (proj2 (proj2 (proj2 (buildLinearLevels_shape [10; 20] 7)))
           4%nat 20); [reflexivity | cbn; lia].
Defined.

Lemma divLoop_length fuel start i mnA mxA mxB :
  Z.of_nat fuel = MAX_LEVEL - i ->
  length (divLoop fuel start i mnA mxA mxB) = fuel.
Proof.
  revert i mnA mxA mxB.
  induction fuel as [|fuel IH]; intros i mnA mxA mxB Hi.
  - reflexivity.
  - cbn [divLoop]. assert ((i <? MAX_LEVEL) = true) as -> by lia.
    cbn [length]. f_equal. apply IH. lia.
Qed.

Lemma fifth_step (a : Z) :
  0 <= a -> a / 5 + (if (a + 1) mod 5 =? 0 then 1 else 0) = (a + 1) / 5.
Proof.
  intros Ha. destruct (Z.eqb_spec ((a + 1) mod 5) 0);
    Z.div_mod_to_equations; lia.
Qed.

Lemma divLoop_lookup fuel start i mnA0 mxA mxB (j : nat) :
  Z.of_nat fuel = MAX_LEVEL - i -> start <= i -> (j < fuel)%nat ->
  divLoop fuel start i (mnA0 + (i - start) / 5) mxA mxB !! j
  = Some {| minA := Some (mnA0 + (i - start + Z.of_nat j + 1) / 5);
            maxA := mxA + 5 * (Z.of_nat j + 1);
            minB := Some 0;
            maxB := mxB + 4 * (Z.of_nat j + 1);
            allowNegative := None |}.
Proof.
  revert i mxA mxB j.
  induction fuel as [|fuel IH]; intros i mxA mxB j Hi Hs Hj.
  - lia.
  - cbn [divLoop]. assert ((i <? MAX_LEVEL) = true) as -> by lia.
    assert (Hfifth :
      (if (i - start + 1) mod 5 =? 0
       then mnA0 + (i - start) / 5 + 1 else mnA0 + (i - start) / 5)
      = mnA0 + (i + 1 - start) / 5).
    { pose proof (fifth_step (i - start) ltac:(lia)) as H.
      replace (i + 1 - start) with (i - start + 1) by lia.
      destruct ((i - start + 1) mod 5 =? 0); lia. }
    cbn zeta. rewrite Hfifth.
    destruct j as [|j].
    + cbn. do 2 f_equal; try lia. do 3 f_equal. lia.
    + cbn [lookup list_lookup]. change (?l !! j) with (lookup j l).
      rewrite (IH (i + 1) (mxA + 5) (mxB + 4) j) by lia.
      do 2 f_equal; try lia. do 3 f_equal. lia.
Qed.

(** X2. [buildDivLevels] returns no level for an empty base and exactly
    [MAX_LEVEL] levels for any other base; the authored levels come first,
    and the [a]-th level added after them has [maxA] and [maxB] grown by
    [5 a] and [4 a], [minB] 0, and [minA] raised by one every fifth added
    level. *)
Theorem buildDivLevels_shape (base : list LevelSpec) :
  (base = [] -> buildDivLevels base = [])
  /\ (base <> [] -> Z.of_nat (length (buildDivLevels base)) = MAX_LEVEL)
  /\ (forall (j : nat) spec, (j < 50)%nat -> base !! j = Some spec ->
        buildDivLevels base !! j = Some spec)
  /\ (forall (j : nat) final,
        last base = Some final -> (length base <= j < 50)%nat ->
        let added := Z.of_nat j - Z.of_nat (length base) + 1 in
        buildDivLevels base !! j
        = Some {| minA := Some (default 1 (minA final) + added / 5);
                  maxA := maxA final + 5 * added;
                  minB := Some 0;
                  maxB := maxB final + 4 * added;
                  allowNegative := None |}).
Proof.
  unfold buildDivLevels, slice_prefix.
  change (Z.to_nat MAX_LEVEL) with 50%nat.
  set (levels := take 50 base).
  assert (Hlen : length levels = (length base `min` 50)%nat).
  { subst levels. rewrite length_take. lia. }
  split; [|split; [|split]].
  - intros ->. reflexivity.
  - intros Hne. destruct (last levels) as [final|] eqn:Hlast.
    + rewrite length_app, divLoop_length by (unfold MAX_LEVEL; lia).
      unfold MAX_LEVEL. lia.
    + apply last_None in Hlast. rewrite Hlast in Hlen.
      destruct base; [congruence | cbn in Hlen; lia].
  - intros j spec Hj Hspec.
    assert (Hlv : levels !! j = Some spec).
    { subst levels. rewrite lookup_take_lt by lia. exact Hspec. }
    destruct (last levels); [|exact Hlv].
    rewrite lookup_app_l; [exact Hlv|]. eapply lookup_lt_Some, Hlv.
  - intros j final Hfinal [Hlo Hhi].
    assert (Htake : levels = base) by (apply take_ge; lia).
    rewrite Htake, Hfinal, lookup_app_r by lia.
    set (n := Z.of_nat (length base)).
    pose proof (divLoop_lookup (Z.to_nat (MAX_LEVEL - n)) n n
                  (default 1 (minA final)) (maxA final) (maxB final)
                  (j - length base)) as Hloop.
    replace (n - n) with 0 in Hloop by lia.
    change (0 / 5) with 0 in Hloop. rewrite Z.add_0_r in Hloop.
    rewrite Hloop by (unfold MAX_LEVEL; lia).
    subst n. do 2 f_equal; try lia. do 3 f_equal. lia.
Qed.

Lemma buildDivLevels_shape_witness :
  buildDivLevels [divSpec 1 5 0 5] !! 5%nat
  = Some {| minA := Some 2; maxA := 30; minB := Some 0; maxB := 25;
            allowNegative := None |}.
Proof.
  apply (proj2 (proj2 (proj2 (buildDivLevels_shape [divSpec 1 5 0 5])))
           5%nat (divSpec 1 5 0 5)); [reflexivity | cbn; lia].
Defined.

(** ** Looking a level up *)

Lemma getLevelSpec_index k lv :
  getLevelSpec k lv = LEVELS k !! Z.to_nat (clamp lv 1 MAX_LEVEL - 1).
Proof.
  unfold getLevelSpec. rewrite LEVELS_length. f_equal.
  unfold clamp, MAX_LEVEL. lia.
Qed.

(** X3. [getLevelSpec] never comes back empty-handed: it returns the entry
    of the level clamped into [1, MAX_LEVEL], so every level at or below 1
    reads the first entry, every level at or above [MAX_LEVEL] the last,
    and a level in between its own. *)
Theorem getLevelSpec_clamps k lv :
  is_Some (getLevelSpec k lv)
  /\ getLevelSpec k lv = getLevelSpec k (clamp lv 1 MAX_LEVEL)
  /\ (lv <= 1 -> getLevelSpec k lv = LEVELS k !! 0%nat)
  /\ (MAX_LEVEL <= lv -> getLevelSpec k lv = last (LEVELS k))
  /\ (1 <= lv <= MAX_LEVEL ->
      getLevelSpec k lv = LEVELS k !! Z.to_nat (lv - 1)).
Proof.
  split; [apply getLevelSpec_total|].
  rewrite !getLevelSpec_index.
  split; [|split; [|split]].
  - f_equal. unfold clamp, MAX_LEVEL. lia.
  - intros H. f_equal. unfold clamp, MAX_LEVEL. lia.
  - intros H. rewrite last_lookup. f_equal.
    pose proof (LEVELS_length k). unfold clamp, MAX_LEVEL in *. lia.
  - intros H. f_equal. unfold clamp, MAX_LEVEL in *. lia.
Qed.

Lemma getLevelSpec_clamps_witness :
  getLevelSpec mul (-3) = LEVELS mul !! 0%nat
  /\ getLevelSpec mul 80 = last (LEVELS mul).
Proof.
  split.
  - apply (proj1 (proj2 (proj2 (getLevelSpec_clamps mul (-3))))). lia.
  - apply (proj1 (proj2 (proj2 (proj2 (getLevelSpec_clamps mul 80))))).
    unfold MAX_LEVEL. lia.
Defined.

Lemma getLevelSpec_listed k lv spec :
  getLevelSpec k lv = Some spec ->
  exists i : nat, (i < 50)%nat /\ LEVELS k !! i = Some spec
    /\ Z.of_nat i = clamp lv 1 MAX_LEVEL - 1.
Proof.
  rewrite getLevelSpec_index. intros H.
  exists (Z.to_nat (clamp lv 1 MAX_LEVEL - 1)).
  pose proof (clamp_bounds lv 1 MAX_LEVEL). unfold MAX_LEVEL in *.
  split; [lia|]. split; [exact H | lia].
Qed.

Lemma LEVELS_rangesOrdered k :
  forallb rangesOrdered (LEVELS k) = true.
Proof. destruct k; vm_compute; reflexivity. Qed.

Lemma LEVELS_div_lowA :
  forallb (fun spec => 1 <=? lowA spec) (LEVELS div) = true.
Proof. vm_compute. reflexivity. Qed.

Lemma LEVELS_neverEasier k : neverEasier (LEVELS k) = true.
Proof. destruct k; vm_compute; reflexivity. Qed.

Lemma LEVELS_no_override k :
  forallb (fun spec => if allowNegative spec is None then true else false)
          (LEVELS k) = true.
Proof. destruct k; vm_compute; reflexivity. Qed.

Lemma forallb_lookup {A} (p : A -> bool) (l : list A) (i : nat) (x : A) :
  forallb p l = true -> l !! i = Some x -> p x = true.
Proof.
  intros Hall Hx. rewrite forallb_forall in Hall.
  apply Hall, list_elem_of_In, list_elem_of_lookup. eauto.
Qed.

(** X4. In the tables the engine uses, no level of any skill has an
    inverted or negative operand range ([0 <= minA <= maxA] and
    [0 <= minB <= maxB], an absent minimum counting as 0), every division
    level draws its divisor from 1 upwards, and a higher level never has a
    smaller [maxA] or [maxB] than a lower one. *)
Theorem level_table_well_formed :
  (forall k lv spec, getLevelSpec k lv = Some spec ->
     0 <= lowA spec <= maxA spec /\ 0 <= lowB spec <= maxB spec)
  /\ (forall lv spec, getLevelSpec div lv = Some spec -> 1 <= lowA spec)
  /\ (forall k l1 l2 s1 s2,
        l1 <= l2 ->
        getLevelSpec k l1 = Some s1 -> getLevelSpec k l2 = Some s2 ->
        maxA s1 <= maxA s2 /\ maxB s1 <= maxB s2).
Proof.
  split; [|split].
  - intros k lv spec (i & _ & Hi & _)%getLevelSpec_listed.
    pose proof (forallb_lookup _ _ _ _ (LEVELS_rangesOrdered k) Hi) as H.
    unfold rangesOrdered in H. lia.
  - intros lv spec (i & _ & Hi & _)%getLevelSpec_listed.
    pose proof (forallb_lookup _ _ _ _ LEVELS_div_lowA Hi) as H.
    cbn beta in H. lia.
  - intros k l1 l2 s1 s2 Hle
      (i & Hi50 & Hi & Hil)%getLevelSpec_listed
      (j & Hj50 & Hj & Hjl)%getLevelSpec_listed.
    pose proof (LEVELS_neverEasier k) as Hall. unfold neverEasier in Hall.
    rewrite forallb_forall in Hall.
    assert (Hlen : length (LEVELS k) = 50%nat).
    { pose proof (LEVELS_length k). unfold MAX_LEVEL in *. lia. }
    assert (Hij : (i <= j)%nat).
    { pose proof (clamp_mono l1 l2 1 MAX_LEVEL Hle). lia. }
    specialize (Hall i). rewrite forallb_forall in Hall.
    specialize (Hall ltac:(apply in_seq; lia) j ltac:(apply in_seq; lia)).
    rewrite Hi, Hj in Hall. unfold notEasier in Hall. lia.
Qed.

Lemma level_table_well_formed_witness :
  exists s1 s2,
    getLevelSpec add 3 = Some s1 /\ getLevelSpec add 40 = Some s2
    /\ maxA s1 <= maxA s2.
Proof.
  destruct (getLevelSpec add 3) as [s1|] eqn:H1; [|vm_compute in H1; discriminate].
  destruct (getLevelSpec add 40) as [s2|] eqn:H2; [|vm_compute in H2; discriminate].
  exists s1, s2. split; [reflexivity|]. split; [reflexivity|].
  apply (proj2 (proj2 level_table_well_formed) add 3 40 s1 s2);
    [lia | exact H1 | exact H2].
Defined.

(** ** Drawing operands *)

(** X5. With [Math.random()] in [0, 1) and [min <= max], [randomInt]
    returns an integer between [min] and [max], both included; 0 gives
    [min]; and every integer of the range is returned for some value of
    [Math.random()] in [0, 1). *)
Theorem randomInt_covers_range lo hi :
  lo <= hi ->
  (forall r, (0 <= r)%Q -> (r < 1)%Q -> lo <= randomInt lo hi r <= hi)
  /\ randomInt lo hi 0 = lo
  /\ (forall v, lo <= v <= hi ->
        exists r, (0 <= r)%Q /\ (r < 1)%Q /\ randomInt lo hi r = v).
Proof.
  intros Hle. split; [|split].
  - intros r H0 H1. apply randomInt_range; assumption.
  - unfold randomInt. rewrite Qmult_0_l. reflexivity.
  - intros v Hv. set (n := hi - lo + 1).
    assert (Hn : 0 < n) by (subst n; lia).
    exists (inject_Z (v - lo) / inject_Z n)%Q.
    assert (HnQ : (0 < inject_Z n)%Q).
    { change 0%Q with (inject_Z 0). rewrite <- Zlt_Qlt. exact Hn. }
    split; [|split].
    + apply Qle_shift_div_l; [exact HnQ|].
      rewrite Qmult_0_l. change 0%Q with (inject_Z 0).
      rewrite <- Zle_Qle. lia.
    + apply Qlt_shift_div_r; [exact HnQ|].
      rewrite Qmult_1_l, <- Zlt_Qlt. subst n. lia.
    + unfold randomInt. fold n.
      assert (Heq : (inject_Z (v - lo) / inject_Z n * inject_Z n
                     == inject_Z (v - lo))%Q).
      { field. intros H0. rewrite H0 in HnQ. apply (Qlt_irrefl 0), HnQ. }
      rewrite Heq, Qfloor_Z. lia.
Qed.

Lemma randomInt_covers_range_witness :
  2 <= randomInt 2 9 (3 # 4) <= 9.
Proof.
  apply (proj1 (randomInt_covers_range 2 9 ltac:(lia)) (3 # 4)%Q);
    vm_compute; [discriminate | reflexivity].
Defined.

(** ** Questions of every skill *)

Lemma readQuestion_show (a b : Z) (op : ascii) :
  readQuestion (showZ a +:+ String " " (String op (String " " (showZ b))))
  = Some (a, String op EmptyString, b).
Proof.
  unfold readQuestion. rewrite splitAtSpace_showZ.
  rewrite !readZ_showZ. reflexivity.
Qed.

Lemma generateQuestion_unfold k lv options e spec :
  getLevelSpec k lv = Some spec ->
  exists q, generateQuestion k lv options e = Some q
    /\ skill q = k /\ qlevel q = lv
    /\ id q = skillName k +:+ "-" +:+ showZ (now e) +:+ "-" +:+ hexTail e
    /\ let a := drawnA spec e in
       let b := drawnB spec e in
       let allowNeg := default (default false (allowNegative spec))
                         (options ≫= optAllowNegative) in
       match k with
       | add => text q = showZ a +:+ " + " +:+ showZ b /\ answer q = a + b
       | sub =>
           let high := if allowNeg then a else Z.max a b in
           let low := if allowNeg then b else Z.min a b in
           text q = showZ high +:+ " - " +:+ showZ low
           /\ answer q = high - low
       | mul => text q = showZ a +:+ " x " +:+ showZ b /\ answer q = a * b
       | div =>
           text q = showZ (Z.max 1 a * b) +:+ " / " +:+ showZ (Z.max 1 a)
           /\ answer q = b
       end.
Proof.
  intros Hspec. unfold generateQuestion. rewrite Hspec.
  cbn [mbind option_bind].
  destruct k; eexists; (split; [reflexivity|]); cbn;
    repeat split; reflexivity.
Qed.

(** X6. [generateQuestion] returns a question for every skill, level,
    option and draw; the question carries the skill and level asked for,
    and its answer is what the displayed text works out to: read back, the
    text is two integers around the symbol of the skill, and the answer is
    their sum, difference, product or exact quotient. *)
Theorem generated_answer_matches_text k lv options e :
  exists q x y,
    generateQuestion k lv options e = Some q
    /\ skill q = k
    /\ qlevel q = lv
    /\ readQuestion (text q) = Some (x, SKILL_SYMBOLS k, y)
    /\ worked k x y = Some (answer q).
Proof.
  destruct (getLevelSpec_total k lv) as [spec Hspec].
  destruct (generateQuestion_unfold k lv options e spec Hspec)
    as (q & Hq & Hk & Hl & _ & Hbody).
  cbn zeta in Hbody. exists q.
  destruct k; destruct Hbody as [Htext Hans]; rewrite Htext, Hans.
  - eexists _, _. repeat (split; [eassumption || reflexivity|]).
    split; [apply (readQuestion_show _ _ "+"%char) | reflexivity].
  - eexists _, _. repeat (split; [eassumption || reflexivity|]).
    split; [apply (readQuestion_show _ _ "-"%char) | reflexivity].
  - eexists _, _. repeat (split; [eassumption || reflexivity|]).
    split; [apply (readQuestion_show _ _ "x"%char) | reflexivity].
  - eexists _, _. repeat (split; [eassumption || reflexivity|]).
    split; [apply (readQuestion_show _ _ "/"%char) |].
    unfold worked.
    set (d := Z.max 1 (drawnA spec e)). set (b := drawnB spec e).
    assert (Hd : d <> 0) by (subst d; lia).
    rewrite (Z.mul_comm d b), Z.mod_mul, Z.div_mul by exact Hd.
    destruct (Z.eqb_spec d 0); [contradiction | reflexivity].
Qed.

Lemma drawn_in_range k lv spec e :
  getLevelSpec k lv = Some spec -> unitDraws e ->
  0 <= lowA spec <= drawnA spec e /\ drawnA spec e <= maxA spec
  /\ 0 <= lowB spec <= drawnB spec e /\ drawnB spec e <= maxB spec.
Proof.
  intros (i & _ & Hi & _)%getLevelSpec_listed (HA0 & HA1 & HB0 & HB1).
  pose proof (forallb_lookup _ _ _ _ (LEVELS_rangesOrdered k) Hi) as H.
  unfold rangesOrdered in H.
  pose proof (randomInt_range (lowA spec) (maxA spec) (randA e)
                ltac:(lia) HA0 HA1).
  pose proof (randomInt_range (lowB spec) (maxB spec) (randB e)
                ltac:(lia) HB0 HB1).
  unfold drawnA, drawnB. lia.
Qed.

Lemma spec_has_no_override k lv spec :
  getLevelSpec k lv = Some spec -> allowNegative spec = None.
Proof.
  intros (i & _ & Hi & _)%getLevelSpec_listed.
  pose proof (forallb_lookup _ _ _ _ (LEVELS_no_override k) Hi) as H.
  cbn beta in H. destruct (allowNegative spec); [discriminate | reflexivity].
Qed.

(** X7. A subtraction shows the two draws in the order drawn, with answer
    [a - b], when the caller allows negatives; in every other case (the
    option absent, unset or false) it shows the larger draw first and the
    answer is the distance between the draws, so never negative. *)
Theorem subtraction_orders_operands lv options e :
  exists spec q,
    getLevelSpec sub lv = Some spec
    /\ generateQuestion sub lv options e = Some q
    /\ let a := drawnA spec e in
       let b := drawnB spec e in
       (options ≫= optAllowNegative = Some true ->
        text q = showZ a +:+ " - " +:+ showZ b /\ answer q = a - b)
       /\ (options ≫= optAllowNegative <> Some true ->
           text q = showZ (Z.max a b) +:+ " - " +:+ showZ (Z.min a b)
           /\ answer q = Z.abs (a - b)
           /\ 0 <= answer q).
Proof.
  destruct (getLevelSpec_total sub lv) as [spec Hspec].
  destruct (generateQuestion_unfold sub lv options e spec Hspec)
    as (q & Hq & _ & _ & _ & Htext & Hans).
  rewrite (spec_has_no_override _ _ _ Hspec) in Htext, Hans.
  exists spec, q. split; [exact Hspec|]. split; [exact Hq|].
  cbn zeta. split.
  - intros Hopt. rewrite Hopt in Htext, Hans. cbn in Htext, Hans.
    split; assumption.
  - intros Hopt.
    destruct (options ≫= optAllowNegative) as [[|]|];
      [congruence | |]; cbn in Htext, Hans;
      (split; [exact Htext|]); rewrite Hans; lia.
Qed.

Lemma subtraction_orders_operands_witness :
  exists q,
    generateQuestion sub 4 None (mkEntropy (1 # 10) (9 # 10) 0 "a") = Some q
    /\ 0 <= answer q.
Proof.
  destruct (subtraction_orders_operands 4 None
              (mkEntropy (1 # 10) (9 # 10) 0 "a"))
    as (spec & q & _ & Hq & _ & Hoff).
  exists q. split; [exact Hq|].
  apply Hoff. cbn. discriminate.
Defined.

(** X8. With both values of [Math.random()] in [0, 1), and negatives not
    allowed by the caller, the answer of a generated question is never
    negative and never above what the level allows: [maxA + maxB] for an
    addition, the larger maximum for a subtraction, [maxA * maxB] for a
    multiplication, [maxB] for a division. *)
Theorem generated_answer_bounds k lv options e :
  unitDraws e ->
  options ≫= optAllowNegative <> Some true ->
  exists spec q,
    getLevelSpec k lv = Some spec
    /\ generateQuestion k lv options e = Some q
    /\ 0 <= answer q
    /\ answer q <= match k with
                   | add => maxA spec + maxB spec
                   | sub => Z.max (maxA spec) (maxB spec)
                   | mul => maxA spec * maxB spec
                   | div => maxB spec
                   end.
Proof.
  intros Hunit Hopt.
  destruct (getLevelSpec_total k lv) as [spec Hspec].
  destruct (generateQuestion_unfold k lv options e spec Hspec)
    as (q & Hq & _ & _ & _ & Hbody).
  pose proof (drawn_in_range k lv spec e Hspec Hunit) as Hr.
  exists spec, q. split; [exact Hspec|]. split; [exact Hq|].
  cbn zeta in Hbody.
  destruct k; destruct Hbody as [_ Hans]; rewrite Hans.
  - lia.
  - rewrite (spec_has_no_override _ _ _ Hspec).
    destruct (options ≫= optAllowNegative) as [[|]|];
      [congruence | |]; cbn; lia.
  - split; [nia|]. apply Z.mul_le_mono_nonneg; lia.
  - lia.
Qed.

Lemma generated_answer_bounds_witness :
  exists spec q,
    getLevelSpec mul 2 = Some spec
    /\ generateQuestion mul 2 None (mkEntropy (1 # 2) (1 # 3) 5 "c") = Some q
    /\ 0 <= answer q <= maxA spec * maxB spec.
Proof.
  destruct (generated_answer_bounds mul 2 None
              (mkEntropy (1 # 2) (1 # 3) 5 "c"))
    as (spec & q & Hs & Hq & H0 & H1).
  - unfold unitDraws. cbn. repeat split; vm_compute; discriminate.
  - cbn. discriminate.
  - exists spec, q. repeat split; assumption.
Defined.

(** X9. With [Math.random()] in [0, 1), the divisor a division shows is
    the draw itself, taken from [minA, maxA] and at least 1: the guard
    [max(1, a)] never has to step in, the quotient lies in [0, maxB] and
    the dividend shown is at most [maxA * maxB]. *)
Theorem division_divisor_is_the_draw lv options e :
  unitDraws e ->
  exists spec q,
    getLevelSpec div lv = Some spec
    /\ generateQuestion div lv options e = Some q
    /\ let a := drawnA spec e in
       let b := drawnB spec e in
       Z.max 1 a = a
       /\ 1 <= lowA spec <= a /\ a <= maxA spec
       /\ 0 <= b <= maxB spec
       /\ text q = showZ (a * b) +:+ " / " +:+ showZ a
       /\ answer q = b
       /\ 0 <= a * b <= maxA spec * maxB spec.
Proof.
  intros Hunit.
  destruct (getLevelSpec_total div lv) as [spec Hspec].
  destruct (generateQuestion_unfold div lv options e spec Hspec)
    as (q & Hq & _ & _ & _ & Htext & Hans).
  pose proof (drawn_in_range div lv spec e Hspec Hunit) as Hr.
  assert (Hlow : 1 <= lowA spec).
  { destruct (getLevelSpec_listed _ _ _ Hspec) as (i & _ & Hi & _).
    pose proof (forallb_lookup _ _ _ _ LEVELS_div_lowA Hi) as H.
    cbn beta in H. lia. }
  exists spec, q. split; [exact Hspec|]. split; [exact Hq|].
  cbn zeta.
  assert (Hmax : Z.max 1 (drawnA spec e) = drawnA spec e) by lia.
  rewrite Hmax in Htext.
  repeat split; try assumption; try lia.
  - nia.
  - apply Z.mul_le_mono_nonneg; lia.
Qed.

Lemma division_divisor_is_the_draw_witness :
  exists q,
    generateQuestion div 7 None (mkEntropy 0 (1 # 2) 5 "d") = Some q
    /\ answer q <= 25.
Proof.
  destruct (division_divisor_is_the_draw 7 None (mkEntropy 0 (1 # 2) 5 "d"))
    as (spec & q & Hs & Hq & _ & _ & _ & Hb & _ & Ha & _).
  - unfold unitDraws. cbn. repeat split; vm_compute; discriminate.
  - exists q. split; [exact Hq|]. rewrite Ha.
    vm_compute in Hs. injection Hs as <-. cbn in Hb. lia.
Defined.

(** ** Picking a skill at random *)

Lemma accuracyFromHistory_ge_0 (h : list Result) :
  (0 <= accuracyFromHistory h)%Q.
Proof.
  unfold accuracyFromHistory. destruct h as [|r h]; cbn [length Nat.eqb].
  - lra.
  - pose proof (correctCount_bounds (r :: h)) as [Hge _].
    apply Qle_shift_div_l.
    + change 0%Q with (inject_Z 0). rewrite <- Zlt_Qlt. cbn [length]. lia.
    + rewrite Qmult_0_l. change 0%Q with (inject_Z 0).
      rewrite <- Zle_Qle. exact Hge.
Qed.

Lemma skillScore_ge_0 stats k : (0 <= skillScore stats k)%Q.
Proof.
  unfold skillScore.
  destruct (length (history (getSkill stats k)) =? 0)%nat.
  - lra.
  - apply accuracyFromHistory_ge_0.
Qed.

Lemma Qmaxb_spec (x y : Q) :
  (x <= Qmaxb x y)%Q /\ (y <= Qmaxb x y)%Q
  /\ (Qmaxb x y = x \/ Qmaxb x y = y).
Proof.
  unfold Qmaxb. destruct (Qle_bool x y) eqn:Hb.
  - apply Qle_bool_iff in Hb. repeat split; try lra. auto.
  - assert (~ (x <= y)%Q) by (rewrite <- Qle_bool_iff; congruence).
    repeat split; try lra. auto.
Qed.

Lemma skillWeight_score stats k :
  skillWeight stats k = Qmaxb 0.15 (1 - skillScore stats k).
Proof. reflexivity. Qed.

Lemma skillWeight_bounds_aux stats :
  (forall k, (0.15 <= skillWeight stats k)%Q)
  /\ (forall k, (skillWeight stats k <= 1)%Q).
Proof.
  split; intros k; rewrite skillWeight_score;
    destruct (Qmaxb_spec 0.15 (1 - skillScore stats k))
      as (H1 & H2 & [He | He]);
    rewrite He in *; pose proof (skillScore_ge_0 stats k); lra.
Qed.

(** X10. The weight [pickSkill] gives a skill is the larger of 0.15 and
    one minus its score, so it lies between 0.15 and 1, and of two skills
    the one with the lower score never gets the smaller weight. *)
Theorem skillWeight_bounds stats :
  (forall k, (0.15 <= skillWeight stats k)%Q
             /\ (skillWeight stats k <= 1)%Q
             /\ (1 - skillScore stats k <= skillWeight stats k)%Q)
  /\ (forall k k', (skillScore stats k <= skillScore stats k')%Q ->
                   (skillWeight stats k' <= skillWeight stats k)%Q).
Proof.
  split.
  - intros k. rewrite skillWeight_score.
    destruct (Qmaxb_spec 0.15 (1 - skillScore stats k))
      as (H1 & H2 & [He | He]);
      rewrite He in *; pose proof (skillScore_ge_0 stats k);
      repeat split; lra.
  - intros k k' Hle. rewrite !skillWeight_score.
    destruct (Qmaxb_spec 0.15 (1 - skillScore stats k)) as (H1 & H2 & _).
    destruct (Qmaxb_spec 0.15 (1 - skillScore stats k'))
      as (_ & _ & [He | He]); rewrite He; lra.
Qed.

Lemma skillWeight_bounds_witness :
  (skillWeight statsWeakMul add <= skillWeight statsWeakMul mul)%Q.
Proof.
  apply (proj2 (skillWeight_bounds statsWeakMul) mul add).
  vm_compute. discriminate.
Defined.

Lemma total_weightSum (weighted : list (SkillKey * Q)) (acc : Q) :
  (fold_left (fun sum item => sum + item.2) weighted acc
   == acc + weightSum weighted)%Q.
Proof.
  revert acc. induction weighted as [|item l IH]; intros acc.
  - change (acc == acc + 0)%Q. lra.
  - change (fold_left (fun sum item => sum + item.2) l (acc + item.2)
            == acc + (item.2 + weightSum l))%Q.
    rewrite IH. lra.
Qed.

Lemma weightSum_app (l1 l2 : list (SkillKey * Q)) :
  (weightSum (l1 ++ l2) == weightSum l1 + weightSum l2)%Q.
Proof.
  induction l1 as [|item l IH].
  - change (weightSum l2 == 0 + weightSum l2)%Q. lra.
  - change (item.2 + weightSum (l ++ l2)
            == item.2 + weightSum l + weightSum l2)%Q.
    rewrite IH. lra.
Qed.

Lemma weightSum_nonneg (l : list (SkillKey * Q)) :
  Forall (fun item => (0 <= item.2)%Q) l -> (0 <= weightSum l)%Q.
Proof.
  induction 1 as [|item l Hitem _ IH].
  - change (0 <= 0)%Q. lra.
  - change (0 <= item.2 + weightSum l)%Q. lra.
Qed.

Lemma pickLoop_hits (pre post : list (SkillKey * Q)) k (w roll : Q) :
  Forall (fun item => (0 <= item.2)%Q) pre -> (0 < w)%Q ->
  (2 * roll == 2 * weightSum pre + w)%Q ->
  pickLoop (pre ++ (k, w) :: post) roll = k.
Proof.
  intros Hpre Hw. revert roll.
  induction Hpre as [|item pre Hitem Hall IH]; intros roll Hroll.
  - change (weightSum []) with 0%Q in Hroll. cbn [app pickLoop fst snd].
    assert (Hb : Qle_bool (roll - w) 0 = true)
      by (apply Qle_bool_iff; lra).
    rewrite Hb. reflexivity.
  - change (weightSum (item :: pre)) with (item.2 + weightSum pre)%Q
      in Hroll.
    pose proof (weightSum_nonneg pre Hall) as Hsum.
    cbn [app pickLoop].
    destruct (Qle_bool (roll - item.2) 0) eqn:Hb.
    + apply Qle_bool_iff in Hb. lra.
    + apply IH. lra.
Qed.

Lemma pickLoop_selectable (pre post : list (SkillKey * Q)) k (w : Q) :
  Forall (fun item => (0 <= item.2)%Q) pre ->
  Forall (fun item => (0 <= item.2)%Q) post -> (0 < w)%Q ->
  exists r, (0 <= r)%Q /\ (r < 1)%Q
    /\ pickLoop (pre ++ (k, w) :: post)
         (r * fold_left (fun sum item => sum + item.2)
                (pre ++ (k, w) :: post) 0)%Q = k.
Proof.
  intros Hpre Hpost Hw.
  pose proof (weightSum_nonneg pre Hpre) as Hp.
  pose proof (weightSum_nonneg post Hpost) as Hq.
  set (total := fold_left (fun sum item => (sum + item.2)%Q)
                  (pre ++ (k, w) :: post) 0%Q).
  assert (Htotal : (total == weightSum pre + w + weightSum post)%Q).
  { subst total. rewrite total_weightSum, weightSum_app.
    change (weightSum ((k, w) :: post)) with (w + weightSum post)%Q. lra. }
  assert (Hpos : (0 < total)%Q) by lra.
  assert (Hpos2 : (0 < 2 * total)%Q) by lra.
  exists ((2 * weightSum pre + w) / (2 * total))%Q.
  split; [|split].
  - apply Qle_shift_div_l; [exact Hpos2 | lra].
  - apply Qlt_shift_div_r; [exact Hpos2 | lra].
  - apply pickLoop_hits; try assumption.
    field. intros H0. rewrite H0 in Hpos. apply (Qlt_irrefl 0), Hpos.
Qed.

(** X11. Every skill can be picked: whatever the stats, for each skill
    there is a value of [Math.random()] in [0, 1) for which [pickSkill]
    returns it (weights taken as exact rationals); and the value 0 always
    picks the first skill listed. *)
Theorem pickSkill_reaches_every_skill stats :
  (forall k, exists r, (0 <= r)%Q /\ (r < 1)%Q /\ pickSkill stats r = k)
  /\ pickSkill stats 0 = add.
Proof.
  assert (Hw : forall k, (0 < skillWeight stats k)%Q).
  { intros k. pose proof (proj1 (skillWeight_bounds_aux stats) k).
    lra. }
  assert (H0 : forall k, (0 <= (k, skillWeight stats k).2)%Q).
  { intros k. cbn. apply Qlt_le_weak, Hw. }
  split.
  - intros k. unfold pickSkill. cbn [fmap list_fmap SKILL_LIST].
    destruct k.
    + apply (pickLoop_selectable [] _ add); auto.
    + apply (pickLoop_selectable [_] _ sub); auto.
    + apply (pickLoop_selectable [_; _] _ mul); auto.
    + apply (pickLoop_selectable [_; _; _] [] div); auto.
  - unfold pickSkill. cbn [fmap list_fmap SKILL_LIST pickLoop fst snd].
    match goal with
    | |- (if Qle_bool ?x 0 then _ else _) = _ =>
        assert (Hb : Qle_bool x 0 = true)
          by (apply Qle_bool_iff; pose proof (Hw add); lra);
        rewrite Hb; reflexivity
    end.
Qed.

(** ** More on [updateStats] *)

Lemma setSkill_comm stats k1 k2 e1 e2 :
  k1 <> k2 ->
  setSkill (setSkill stats k1 e1) k2 e2
  = setSkill (setSkill stats k2 e2) k1 e1.
Proof. destruct k1, k2; intros Hne; try reflexivity; congruence. Qed.

(** X12. Results for two different skills can be applied in either
    order: the stats that come out are the same. *)
Theorem updateStats_commutes stats k1 k2 c1 c2 ms1 ms2 :
  k1 <> k2 ->
  updateStats (updateStats stats k1 c1 ms1) k2 c2 ms2
  = updateStats (updateStats stats k2 c2 ms2) k1 c1 ms1.
Proof.
  intros Hne.
  rewrite (updateStats_setSkill (updateStats stats k1 c1 ms1)).
  rewrite (updateStats_setSkill (updateStats stats k2 c2 ms2)).
  rewrite (updateStats_other stats k1 k2) by assumption.
  rewrite (updateStats_other stats k2 k1) by congruence.
  rewrite (updateStats_setSkill stats k1), (updateStats_setSkill stats k2).
  apply setSkill_comm. assumption.
Qed.

Lemma updateStats_commutes_witness :
  updateStats (updateStats createDefaultStats add true 900) div false 4000
  = updateStats (updateStats createDefaultStats div false 4000) add true 900.
Proof. apply updateStats_commutes. discriminate. Defined.

Lemma updateStats_entryReachable stats k k' c ms :
  entryReachable (getSkill stats k') ->
  entryReachable (getSkill (updateStats stats k c ms) k').
Proof.
  intros Hin. destruct (decide (k = k')) as [<- | Hne];
    [|rewrite updateStats_other by assumption; exact Hin].
  destruct Hin as (Hlv & Hs & Hm & Hone & Hms & Hlen).
  unfold entryReachable.
  assert (Hhist : (length (slice_last MAX_HISTORY
                     (history (getSkill stats k) ++ [mkResult c ms]))
                   <= 12)%nat).
  { change MAX_HISTORY with (Z.of_nat 12). rewrite slice_last_length. lia. }
  unfold MAX_LEVEL in *. destruct c.
  - destruct (Z_lt_le_dec (streak (getSkill stats k) + 1) 3) as [H|H];
      [rewrite updateStats_not_promoted by auto; cbn; lia|].
    destruct (Z_lt_le_dec (getTargetMs (level (getSkill stats k))) ms)
      as [H'|H'];
      [rewrite updateStats_not_promoted by auto; cbn; lia|].
    rewrite updateStats_promoted by lia. cbn. unfold clamp, MAX_LEVEL.
    destruct (Z.eqb_spec
                (Z.min (Z.max (level (getSkill stats k) + 1) 1) 50)
                (level (getSkill stats k))); lia.
  - destruct (Z_lt_le_dec (mistakeStreak (getSkill stats k) + 1) 2) as [H|H];
      [rewrite updateStats_not_demoted by auto; cbn; lia|].
    rewrite updateStats_demoted by lia. cbn. unfold clamp, MAX_LEVEL.
    destruct (Z.eqb_spec
                (Z.min (Z.max (level (getSkill stats k) - 1) 1) 50)
                (level (getSkill stats k))); lia.
Qed.

(** X13. Whatever results are applied to the default stats, and in
    whatever order, every entry that comes out has its level in
    [1, MAX_LEVEL], both counters non-negative and at most one of them
    non-zero, a mistake streak of at most 1 at any level above 1, and at
    most 12 results in its history. *)
Theorem reachable_entries_are_sound events k :
  let s := getSkill (applyResults events createDefaultStats) k in
  1 <= level s <= MAX_LEVEL
  /\ 0 <= streak s
  /\ 0 <= mistakeStreak s
  /\ (streak s = 0 \/ mistakeStreak s = 0)
  /\ (2 <= level s -> mistakeStreak s <= 1)
  /\ (length (history s) <= 12)%nat.
Proof.
  cbn zeta. change (entryReachable
                      (getSkill (applyResults events createDefaultStats) k)).
  assert (Hgen : forall stats,
             (forall k, entryReachable (getSkill stats k)) ->
             forall k, entryReachable (getSkill (applyResults events stats) k)).
  { induction events as [|[[k0 c] ms] events IH]; intros stats Hin k1.
    - apply Hin.
    - cbn. apply IH. intros k2. apply updateStats_entryReachable, Hin. }
  apply Hgen. intros k'. unfold entryReachable, MAX_LEVEL.
  destruct k'; cbn; lia.
Qed.

Lemma reachable_entries_witness :
  mistakeStreak
    (getSkill (applyResults [(add, false, 100); (add, false, 100)]
                 createDefaultStats) add) = 2
  /\ (2 <= level (getSkill (applyResults [(add, false, 100); (add, false, 100)]
                             createDefaultStats) add)
      -> False).
Proof.
  split; [reflexivity|]. intros Hlevel.
  pose proof (reachable_entries_are_sound
                [(add, false, 100); (add, false, 100)] add)
    as (_ & _ & _ & _ & Hms & _).
  cbn zeta in Hms. specialize (Hms Hlevel).
  vm_compute in Hms. apply Hms. reflexivity.
Defined.

Lemma slice_last_absorb {A} (n : nat) (l l' : list A) :
  slice_last (Z.of_nat n) (slice_last (Z.of_nat n) l ++ l')
  = slice_last (Z.of_nat n) (l ++ l').
Proof.
  rewrite !slice_last_drop. set (d := (length l - n)%nat).
  assert (Hsplit : l ++ l' = take d l ++ (drop d l ++ l'))
    by (rewrite app_assoc, take_drop; reflexivity).
  rewrite Hsplit.
  rewrite (drop_app_ge (take d l)) by (rewrite !length_app, length_take,
                                        length_drop; lia).
  f_equal. rewrite !length_app, length_take, length_drop. lia.
Qed.

Lemma applyResults_history events :
  forall stats k,
    history (getSkill (applyResults events stats) k)
    = match resultsFor k events with
      | [] => history (getSkill stats k)
      | _ :: _ => slice_last MAX_HISTORY
                    (history (getSkill stats k) ++ resultsFor k events)
      end.
Proof.
  change MAX_HISTORY with (Z.of_nat 12).
  induction events as [|[[k0 c] ms] events IH]; intros stats k.
  - reflexivity.
  - cbn [applyResults fold_left fst snd].
    change (fold_left _ events ?s) with (applyResults events s).
    rewrite IH. unfold resultsFor. cbn [omap list_omap fst snd].
    fold (resultsFor k events).
    destruct (decide (k0 = k)) as [-> | Hne].
    + rewrite updateStats_history. change MAX_HISTORY with (Z.of_nat 12).
      destruct (resultsFor k events) as [|r rest]; [reflexivity|].
      rewrite slice_last_absorb, <- app_assoc. reflexivity.
    + rewrite updateStats_other by assumption. reflexivity.
Qed.

(** X14. After any run from the default stats, the history of a skill is
    exactly the last 12 of the results recorded for that skill, in the
    order they were recorded; results for other skills leave no trace in
    it. *)
Theorem history_is_last_results events k :
  history (getSkill (applyResults events createDefaultStats) k)
  = slice_last MAX_HISTORY (resultsFor k events)
  /\ history (getSkill (applyResults events createDefaultStats) k)
     = drop (length (resultsFor k events) - 12) (resultsFor k events).
Proof.
  assert (H : history (getSkill (applyResults events createDefaultStats) k)
              = slice_last MAX_HISTORY (resultsFor k events)).
  { rewrite applyResults_history.
    replace (history (getSkill createDefaultStats k)) with (@nil Result)
      by (destruct k; reflexivity).
    destruct (resultsFor k events); reflexivity. }
  split; [exact H|]. rewrite H. change MAX_HISTORY with (Z.of_nat 12).
  apply slice_last_drop.
Qed.

(** ** Bounds on the projections *)

Lemma getAccuracy_ratio (h : list Result) :
  h <> [] ->
  accuracyFromHistory h
  = (inject_Z (Z.of_nat (length (List.filter correct h)))
     / inject_Z (Z.of_nat (length h)))%Q.
Proof.
  intros Hne. unfold accuracyFromHistory.
  destruct h as [|r h]; [congruence|]. cbn [length Nat.eqb].
  rewrite correctCount_filter. reflexivity.
Qed.

Lemma filter_all (h : list Result) :
  Forall (fun r => correct r = true) h -> List.filter correct h = h.
Proof.
  induction 1 as [|r h Hr _ IH]; cbn; [reflexivity|].
  rewrite Hr, IH. reflexivity.
Qed.

Lemma filter_none (h : list Result) :
  Forall (fun r => correct r = false) h -> List.filter correct h = [].
Proof.
  induction 1 as [|r h Hr _ IH]; cbn; [reflexivity|].
  rewrite Hr, IH. reflexivity.
Qed.

(** X15. The accuracy of any entry lies between 0 and 1; on a non-empty
    history it is 1 when every result is correct and 0 when none is. *)
Theorem accuracy_in_unit_interval s :
  (0 <= getAccuracy s)%Q /\ (getAccuracy s <= 1)%Q
  /\ (history s <> [] -> Forall (fun r => correct r = true) (history s) ->
      (getAccuracy s == 1)%Q)
  /\ (Forall (fun r => correct r = false) (history s) ->
      (getAccuracy s == 0)%Q).
Proof.
  unfold getAccuracy.
  split; [apply accuracyFromHistory_ge_0|].
  split; [apply accuracyFromHistory_le_1|]. split.
  - intros Hne Hall. rewrite getAccuracy_ratio, filter_all by assumption.
    field. destruct (history s); [congruence|].
    change 0%Q with (inject_Z 0). rewrite inject_Z_injective.
    cbn [length]. lia.
  - intros Hnone. destruct (history s) as [|r h] eqn:Hh; [reflexivity|].
    rewrite getAccuracy_ratio, filter_none by (assumption || discriminate).
    cbn [length]. unfold Qdiv. apply Qmult_0_l.
Qed.

Lemma accuracy_in_unit_interval_witness :
  (getAccuracy (mkSkillStats 2 2 0 [mkResult true 800; mkResult true 900])
   == 1)%Q.
Proof.
  apply (proj1 (proj2 (proj2 (accuracy_in_unit_interval
           (mkSkillStats 2 2 0 [mkResult true 800; mkResult true 900]))))).
  - discriminate.
  - repeat constructor.
Defined.

Lemma totalMs_bounds (h : list Result) (lo hi : Z) :
  Forall (fun r => lo <= ms r <= hi) h ->
  lo * Z.of_nat (length h) <= foldr Z.add 0 (ms <$> h)
    <= hi * Z.of_nat (length h).
Proof.
  induction 1 as [|r h Hr _ IH]; cbn [length fmap list_fmap foldr]; lia.
Qed.

(** X16. On a non-empty history whose elapsed times all lie between [lo]
    and [hi], the average time lies between [lo] and [hi] too. *)
Theorem average_between_extremes s (lo hi : Z) :
  history s <> [] ->
  Forall (fun r => lo <= ms r <= hi) (history s) ->
  (inject_Z lo <= getAverageMs s)%Q /\ (getAverageMs s <= inject_Z hi)%Q.
Proof.
  intros Hne Hall. unfold getAverageMs.
  destruct (history s) as [|r h] eqn:Hh; [congruence|].
  cbn [length Nat.eqb]. rewrite totalMs_from, Z.add_0_l.
  pose proof (totalMs_bounds (r :: h) lo hi Hall) as [Hlo Hhi].
  assert (Hn : (0 < inject_Z (Z.of_nat (length (r :: h))))%Q).
  { change 0%Q with (inject_Z 0). rewrite <- Zlt_Qlt. cbn [length]. lia. }
  split.
  - apply Qle_shift_div_l; [exact Hn|].
    rewrite <- inject_Z_mult, <- Zle_Qle. exact Hlo.
  - apply Qle_shift_div_r; [exact Hn|].
    rewrite <- inject_Z_mult, <- Zle_Qle. exact Hhi.
Qed.

Lemma average_between_extremes_witness :
  (inject_Z 700 <= getAverageMs
                     (mkSkillStats 1 0 0 [mkResult true 700;
                                          mkResult false 1500]))%Q.
Proof.
  apply (average_between_extremes
           (mkSkillStats 1 0 0 [mkResult true 700; mkResult false 1500])
           700 1500).
  - discriminate.
  - repeat constructor; cbn; lia.
Defined.

(** ** Sanitizing and parsing typed input *)

Section Sanitizer.

Import Provider.

Lemma digit_not_dash c : isDigit c = true -> isDash c = false.
Proof.
  unfold isDigit, isDash. intros H.
  destruct (Nat.eqb_spec (nat_of_ascii c) 45) as [He|]; [|reflexivity].
  rewrite He in H. discriminate.
Qed.

Lemma stripChars_keeps (cls : ascii -> bool) (s : string) :
  allChars (fun c => negb (cls c)) s = true -> stripChars cls s = s.
Proof.
  induction s as [|c s IH]; cbn; [reflexivity|].
  intros [Hc Hs]%andb_true_iff. apply negb_true_iff in Hc.
  rewrite Hc, IH by assumption. reflexivity.
Qed.

Lemma allChars_weaken (p q : ascii -> bool) (s : string) :
  (forall c, p c = true -> q c = true) ->
  allChars p s = true -> allChars q s = true.
Proof.
  intros Hpq. induction s as [|c s IH]; cbn; [reflexivity|].
  intros [Hc Hs]%andb_true_iff. rewrite (Hpq c Hc), IH by assumption.
  reflexivity.
Qed.

Lemma stripChars_leaves (cls : ascii -> bool) (s : string) :
  allChars (fun c => negb (cls c)) (stripChars cls s) = true.
Proof.
  induction s as [|c s IH]; cbn; [reflexivity|].
  destruct (cls c) eqn:Hc; [exact IH|]. cbn. rewrite Hc, IH. reflexivity.
Qed.

Lemma stripChars_allChars (p cls : ascii -> bool) (s : string) :
  allChars p s = true -> allChars p (stripChars cls s) = true.
Proof.
  induction s as [|c s IH]; cbn; [reflexivity|].
  intros [Hc Hs]%andb_true_iff.
  destruct (cls c); [auto|]. cbn. rewrite Hc, IH by assumption. reflexivity.
Qed.

Lemma no_dash_digits (s : string) :
  allChars (fun c => isDigit c || isDash c) s = true ->
  includesDash s = false -> allChars isDigit s = true.
Proof.
  induction s as [|c s IH]; cbn; [reflexivity|].
  intros [Hc Hs]%andb_true_iff [Hd Hr]%orb_false_iff.
  rewrite Hd, orb_false_r in Hc. rewrite Hc, IH by assumption. reflexivity.
Qed.

Lemma digits_have_no_dash (s : string) :
  allChars isDigit s = true -> includesDash s = false.
Proof.
  induction s as [|c s IH]; cbn; [reflexivity|].
  intros [Hc Hs]%andb_true_iff.
  rewrite (digit_not_dash c Hc), IH by assumption. reflexivity.
Qed.

Lemma cleaned_alphabet (raw : string) :
  allChars (fun c => isDigit c || isDash c)
    (stripChars (fun c => negb (isDigit c || isDash c)) raw) = true.
Proof.
  eapply allChars_weaken; [|apply stripChars_leaves].
  intros c Hc. cbn beta in Hc. rewrite negb_involutive in Hc. exact Hc.
Qed.

Lemma digits_only_strip (s : string) :
  allChars (fun c => isDigit c || isDash c) s = true ->
  allChars isDigit (stripChars isDash s) = true.
Proof.
  induction s as [|c s IH]; cbn; [reflexivity|].
  intros [Hc Hs]%andb_true_iff.
  destruct (isDash c) eqn:Hd; [auto|].
  rewrite orb_false_r in Hc. cbn. rewrite Hc, IH by assumption. reflexivity.
Qed.

Lemma sanitize_off_is_digitsOf (raw : string) :
  sanitizeNumericInput raw false = digitsOf raw.
Proof.
  unfold sanitizeNumericInput, digitsOf. cbn [negb].
  induction raw as [|c raw IH]; cbn; [reflexivity|].
  destruct (isDigit c) eqn:Hc; cbn.
  - rewrite (digit_not_dash c Hc), IH. reflexivity.
  - destruct (isDash c) eqn:Hd; cbn; rewrite ?Hd; exact IH.
Qed.

Lemma digitsOf_strip (cls : ascii -> bool) (s : string) :
  (forall c, cls c = true -> isDigit c = false) ->
  digitsOf (stripChars cls s) = digitsOf s.
Proof.
  intros Hcls. unfold digitsOf.
  induction s as [|c s IH]; cbn; [reflexivity|].
  destruct (cls c) eqn:Hc.
  - rewrite (Hcls c Hc). cbn. exact IH.
  - cbn. rewrite IH. reflexivity.
Qed.

Lemma sanitize_shape (raw : string) (b : bool) :
  answerShape b (sanitizeNumericInput raw b) = true.
Proof.
  unfold sanitizeNumericInput.
  pose proof (cleaned_alphabet raw) as Halpha.
  set (cleaned := stripChars (fun c => negb (isDigit c || isDash c)) raw)
    in *.
  destruct b; cbn [negb].
  - destruct (includesDash cleaned) eqn:Hinc.
    + destruct cleaned as [|c rest]; [reflexivity|].
      cbn in Halpha |- *. apply andb_true_iff in Halpha as [Hc Hr].
      rewrite Hc, (digits_only_strip rest Hr). reflexivity.
    + pose proof (no_dash_digits cleaned Halpha Hinc) as Hd.
      destruct cleaned as [|c rest]; [reflexivity|].
      cbn in Hd |- *. apply andb_true_iff in Hd as [Hc Hr].
      rewrite Hc, Hr. reflexivity.
  - pose proof (digits_only_strip cleaned Halpha) as Hd.
    destruct (stripChars isDash cleaned) as [|c rest]; [reflexivity|].
    cbn in Hd |- *. apply andb_true_iff in Hd as [Hc Hr].
    rewrite Hc, Hr. reflexivity.
Qed.

Lemma sanitize_fixed (s : string) (b : bool) :
  answerShape b s = true -> sanitizeNumericInput s b = s.
Proof.
  destruct s as [|c rest]; [destruct b; reflexivity|].
  cbn [answerShape]. intros [Hc Hr]%andb_true_iff.
  assert (Halpha : allChars (fun c => negb (negb (isDigit c || isDash c)))
                     (String c rest) = true).
  { cbn. rewrite negb_involutive.
    apply andb_true_iff. split.
    - destruct (isDigit c); [reflexivity|]. cbn in Hc |- *.
      apply andb_true_iff in Hc as [_ Hc]. exact Hc.
    - eapply allChars_weaken; [|exact Hr].
      intros c' Hc'. cbn beta. rewrite Hc'. reflexivity. }
  unfold sanitizeNumericInput. rewrite (stripChars_keeps _ _ Halpha).
  assert (Hrest : stripChars isDash rest = rest).
  { apply stripChars_keeps. eapply allChars_weaken; [|exact Hr].
    intros c' Hc'. cbn beta. rewrite (digit_not_dash c' Hc'). reflexivity. }
  destruct b; cbn [negb].
  - destruct (includesDash (String c rest)); [|reflexivity].
    cbn. rewrite Hrest. reflexivity.
  - rewrite andb_false_l, orb_false_r in Hc.
    cbn. rewrite (digit_not_dash c Hc), Hrest. reflexivity.
Qed.

(** X17. What [sanitizeNumericInput] returns is made of digits only, after
    one optional leading minus sign when negatives are allowed; with
    negatives off it is exactly the digits of the input, in order, and in
    both cases the digits of the input are all kept. *)
Theorem sanitized_input_shape (raw : string) :
  (forall b, answerShape b (sanitizeNumericInput raw b) = true)
  /\ sanitizeNumericInput raw false = digitsOf raw
  /\ allChars isDigit (sanitizeNumericInput raw false) = true
  /\ digitsOf (sanitizeNumericInput raw true) = digitsOf raw.
Proof.
  split; [intros b; apply sanitize_shape|].
  split; [apply sanitize_off_is_digitsOf|]. split.
  - rewrite sanitize_off_is_digitsOf. unfold digitsOf.
    eapply allChars_weaken; [|apply stripChars_leaves].
    intros c Hc. cbn beta in Hc. rewrite negb_involutive in Hc. exact Hc.
  - unfold sanitizeNumericInput. cbn [negb].
    set (cleaned := stripChars (fun c => negb (isDigit c || isDash c)) raw).
    assert (Hclean : digitsOf cleaned = digitsOf raw).
    { apply digitsOf_strip. intros c Hc. apply negb_true_iff in Hc.
      apply orb_false_iff in Hc as [Hc _]. exact Hc. }
    destruct (includesDash cleaned); [|exact Hclean].
    rewrite <- Hclean. destruct cleaned as [|c rest]; [reflexivity|].
    unfold stripInnerDashes, digitsOf. cbn [stripChars].
    fold (digitsOf (stripChars isDash rest)). fold (digitsOf rest).
    rewrite digitsOf_strip; [reflexivity|].
    intros c' Hc'. destruct (isDigit c') eqn:Hd; [|reflexivity].
    rewrite (digit_not_dash c' Hd) in Hc'. discriminate.
Qed.

(** X18. Sanitizing twice is sanitizing once, and an input that already has
    the shape (digits after an optional minus sign, the sign only when
    negatives are allowed) is returned as it is. *)
Theorem sanitize_idempotent (b : bool) :
  (forall raw, sanitizeNumericInput (sanitizeNumericInput raw b) b
               = sanitizeNumericInput raw b)
  /\ (forall s, answerShape b s = true -> sanitizeNumericInput s b = s).
Proof.
  split.
  - intros raw. apply sanitize_fixed. apply sanitize_shape.
  - intros s. apply sanitize_fixed.
Qed.

Lemma sanitize_idempotent_witness :
  sanitizeNumericInput "-120" true = "-120".
Proof.
  apply (proj2 (sanitize_idempotent true) "-120"). reflexivity.
Defined.

(** X19. Whatever [Number] does, parsing sanitized input reports [empty]
    exactly when nothing is left of the input, and with negatives off it
    never reports [incomplete]: nothing is left exactly when the input has
    no digit, and a lone minus sign cannot come out of the sanitizer. *)
Theorem parse_after_sanitize (Number : string -> JSNumber) (raw : string) :
  (forall b, parseNumericInput Number (sanitizeNumericInput raw b)
             = ParseFailed empty
             <-> sanitizeNumericInput raw b = "")
  /\ (sanitizeNumericInput raw false = "" <-> digitsOf raw = "")
  /\ parseNumericInput Number (sanitizeNumericInput raw false)
     <> ParseFailed incomplete
  /\ (parseNumericInput Number (sanitizeNumericInput raw true)
      = ParseFailed incomplete
      <-> sanitizeNumericInput raw true = "-").
Proof.
  assert (Hparse : forall v,
            (parseNumericInput Number v = ParseFailed empty <-> v = "")
            /\ (parseNumericInput Number v = ParseFailed incomplete
                <-> v = "-")).
  { intros v. unfold parseNumericInput.
    destruct (String.eqb_spec v "") as [-> | Hne].
    { split; split; intros H; try reflexivity; discriminate. }
    destruct (String.eqb_spec v "-") as [-> | Hnd].
    { split; split; intros H; try reflexivity; discriminate. }
    destruct (Number v); split; split; intros H;
      try discriminate; contradiction. }
  split; [intros b; apply Hparse|].
  split; [rewrite sanitize_off_is_digitsOf; reflexivity|].
  split; [|apply Hparse].
  intros H. apply Hparse in H.
  pose proof (sanitize_shape raw false) as Hshape.
  rewrite H in Hshape. discriminate.
Qed.

End Sanitizer.

(** ** Settings *)

Section SettingsBounds.

Import Provider Session.

Lemma inBounds_fields (s : MathSettings) :
  inBounds s <->
  5 <= questionCount s <= 50 /\ 5 <= timeLimitSeconds s <= 60
  /\ 0 <= negativeLevel s <= 50.
Proof.
  unfold inBounds, settingControls. rewrite !Forall_cons, Forall_nil.
  cbn. unfold MAX_LEVEL. tauto.
Qed.

Lemma normalizeSettings_closed (s : MathSettings) :
  normalizeSettings s settingControls
  = {| questionCount := clampValue (questionCount s) 5 50;
       timeLimitSeconds := clampValue (timeLimitSeconds s) 5 60;
       negativeLevel := clampValue (negativeLevel s) 0 MAX_LEVEL |}.
Proof.
  destruct s as [q t n].
  unfold normalizeSettings, settingControls, clampValue, MAX_LEVEL.
  cbn.
  repeat (match goal with
          | |- context [?a =? ?b] =>
              lazymatch a with
              | context [if _ then _ else _] => fail
              | _ => destruct (Z.eqb_spec a b)
              end
          end; cbn);
    f_equal; lia.
Qed.

(** X20. [normalizeSettings] over the provider's controls clamps each of
    the three settings into the bounds of its control and changes nothing
    else: the result is within bounds, settings already within bounds come
    back unchanged, and normalizing twice is normalizing once. *)
Theorem normalizeSettings_clamps (s : MathSettings) :
  let n := normalizeSettings s settingControls in
  n = {| questionCount := clampValue (questionCount s) 5 50;
         timeLimitSeconds := clampValue (timeLimitSeconds s) 5 60;
         negativeLevel := clampValue (negativeLevel s) 0 MAX_LEVEL |}
  /\ inBounds n
  /\ (inBounds s -> n = s)
  /\ normalizeSettings n settingControls = n.
Proof.
  cbn zeta. rewrite !normalizeSettings_closed.
  split; [reflexivity|]. split; [|split].
  - apply inBounds_fields. cbn. unfold clampValue, MAX_LEVEL. lia.
  - intros Hin%inBounds_fields. destruct s as [q t n]. cbn in *.
    unfold clampValue, MAX_LEVEL. f_equal; lia.
  - cbn. unfold clampValue, MAX_LEVEL. f_equal; lia.
Qed.

Lemma normalizeSettings_clamps_witness :
  normalizeSettings (mkSettings 12 30 4) settingControls = mkSettings 12 30 4.
Proof.
  apply (proj1 (proj2 (proj2 (normalizeSettings_clamps (mkSettings 12 30 4))))).
  apply inBounds_fields. cbn. lia.
Defined.

Lemma adjustSetting_settings (controlId : string) (delta : Z)
    (st : HookState) :
  settings (adjustSetting controlId delta st)
  = let s := settings st in
    if String.eqb "questionCount" controlId then
      mkSettings (clampValue (questionCount s + 1 * delta) 5 50)
        (timeLimitSeconds s) (negativeLevel s)
    else if String.eqb "timeLimitSeconds" controlId then
      mkSettings (questionCount s)
        (clampValue (timeLimitSeconds s + 5 * delta) 5 60) (negativeLevel s)
    else if String.eqb "negativeLevel" controlId then
      mkSettings (questionCount s) (timeLimitSeconds s)
        (clampValue (negativeLevel s + 1 * delta) 0 MAX_LEVEL)
    else s.
Proof.
  unfold adjustSetting, settingControls. cbn [List.find c_id].
  destruct (String.eqb "questionCount" controlId).
  { cbn. unfold clampValue. f_equal. lia. }
  destruct (String.eqb "timeLimitSeconds" controlId).
  { cbn. unfold clampValue. f_equal. lia. }
  destruct (String.eqb "negativeLevel" controlId).
  { cbn. unfold clampValue, MAX_LEVEL. f_equal. lia. }
  reflexivity.
Qed.

(** X21. [adjustSetting] moves the setting of the named control by [delta]
    steps and clamps it into the bounds of the control; the other settings
    and the rest of the state are untouched, an unknown control id changes
    nothing, and settings within bounds stay within bounds. *)
Theorem adjustSetting_stays_in_bounds (controlId : string) (delta : Z)
    (st : HookState) :
  let st' := adjustSetting controlId delta st in
  (inBounds (settings st) -> inBounds (settings st'))
  /\ setSettings (settings st) st' = st
  /\ (controlId = "questionCount" ->
      settings st'
      = mkSettings (clampValue (questionCount (settings st) + delta) 5 50)
          (timeLimitSeconds (settings st)) (negativeLevel (settings st)))
  /\ (controlId = "timeLimitSeconds" ->
      settings st'
      = mkSettings (questionCount (settings st))
          (clampValue (timeLimitSeconds (settings st) + 5 * delta) 5 60)
          (negativeLevel (settings st)))
  /\ (controlId = "negativeLevel" ->
      settings st'
      = mkSettings (questionCount (settings st))
          (timeLimitSeconds (settings st))
          (clampValue (negativeLevel (settings st) + delta) 0 MAX_LEVEL))
  /\ (controlId <> "questionCount" -> controlId <> "timeLimitSeconds" ->
      controlId <> "negativeLevel" -> st' = st).
Proof.
  cbn zeta. split; [|split; [|split; [|split; [|split]]]].
  - rewrite adjustSetting_settings, !inBounds_fields. cbn zeta.
    intros Hin.
    repeat match goal with
           | |- context [String.eqb ?a ?b] => destruct (String.eqb a b)
           end; cbn; unfold clampValue, MAX_LEVEL; lia.
  - unfold adjustSetting.
    destruct (List.find _ settingControls); destruct st; reflexivity.
  - intros ->. rewrite adjustSetting_settings. cbn.
    rewrite Z.mul_1_l. reflexivity.
  - intros ->. rewrite adjustSetting_settings. reflexivity.
  - intros ->. rewrite adjustSetting_settings. cbn.
    rewrite Z.mul_1_l. reflexivity.
  - intros H1 H2 H3. unfold adjustSetting, settingControls.
    cbn [List.find c_id].
    destruct (String.eqb_spec "questionCount" controlId); [congruence|].
    destruct (String.eqb_spec "timeLimitSeconds" controlId); [congruence|].
    destruct (String.eqb_spec "negativeLevel" controlId); [congruence|].
    reflexivity.
Qed.

Lemma adjustSetting_witness :
  settings (adjustSetting "timeLimitSeconds" 20 awaitingWithDash)
  = mkSettings 10 60 0.
Proof.
  rewrite (proj1 (proj2 (proj2 (proj2
             (adjustSetting_stays_in_bounds "timeLimitSeconds" 20
                awaitingWithDash)))) eq_refl).
  reflexivity.
Defined.

End SettingsBounds.

(** ** The keypad *)

Section Keypad.

Import Provider Session.

Lemma allChars_append (p : ascii -> bool) (s t : string) :
  allChars p (s +:+ t) = allChars p s && allChars p t.
Proof.
  induction s as [|c s IH]; [reflexivity|].
  rewrite append_cons. cbn [allChars]. rewrite IH, andb_assoc. reflexivity.
Qed.

Lemma allChars_dropLast (p : ascii -> bool) (s : string) :
  allChars p s = true -> allChars p (dropLast s) = true.
Proof.
  induction s as [|c s IH]; cbn; [reflexivity|].
  intros [Hc Hs]%andb_true_iff. destruct s as [|c' s']; [reflexivity|].
  cbn [allChars]. rewrite Hc. cbn. apply IH, Hs.
Qed.

Lemma answerShape_digits (b : bool) (s : string) :
  allChars isDigit s = true -> answerShape b s = true.
Proof.
  destruct s as [|c rest]; cbn; [reflexivity|].
  intros [Hc Hr]%andb_true_iff. rewrite Hc, Hr. reflexivity.
Qed.

Lemma answerShape_dropLast (b : bool) (s : string) :
  answerShape b s = true -> answerShape b (dropLast s) = true.
Proof.
  destruct s as [|c rest]; cbn; [reflexivity|].
  intros [Hc Hr]%andb_true_iff. destruct rest as [|c' rest']; [reflexivity|].
  cbn [answerShape]. rewrite Hc. cbn [andb].
  apply (allChars_dropLast isDigit (String c' rest')), Hr.
Qed.

Lemma answerShape_append_digit (b : bool) (s : string) (d : ascii) :
  isDigit d = true -> answerShape b s = true ->
  answerShape b (s +:+ String d EmptyString) = true.
Proof.
  intros Hd. destruct s as [|c rest].
  - intros _. change ((isDigit d || (b && isDash d)) && true = true).
    rewrite Hd. reflexivity.
  - rewrite append_cons. cbn [answerShape].
    intros [Hc Hr]%andb_true_iff.
    rewrite Hc, allChars_append, Hr. cbn [allChars andb].
    rewrite Hd. reflexivity.
Qed.

Lemma press_digit_shape (b : bool) (prev : string) (d : ascii) :
  isDigit d = true -> answerShape b prev = true ->
  answerShape b
    (if String.eqb prev "0" then String d EmptyString
     else if String.eqb prev "-0" then "-" +:+ String d EmptyString
     else prev +:+ String d EmptyString) = true.
Proof.
  intros Hd Hshape.
  destruct (String.eqb_spec prev "0") as [-> | _].
  { cbn [answerShape allChars]. rewrite Hd. reflexivity. }
  destruct (String.eqb_spec prev "-0") as [-> | _].
  { destruct b; [|discriminate].
    change (answerShape true (String "-" (String d EmptyString)) = true).
    cbn [answerShape allChars]. rewrite Hd. reflexivity. }
  apply answerShape_append_digit; assumption.
Qed.

Lemma press_minus_shape (prev : string) :
  answerShape true prev = true ->
  answerShape true
    (if startsWithDash prev then dropFirst prev
     else if (String.length prev =? 0)%nat then "-"
     else if String.eqb prev "0" then "-0"
     else "-" +:+ prev) = true.
Proof.
  destruct prev as [|c rest]; [reflexivity|].
  cbn [answerShape startsWithDash dropFirst String.length Nat.eqb].
  intros [Hc Hr]%andb_true_iff.
  destruct (isDash c) eqn:Hdash.
  - apply answerShape_digits, Hr.
  - rewrite andb_false_r, orb_false_r in Hc.
    destruct (String.eqb (String c rest) "0"); [reflexivity|].
    change (answerShape true (String "-" (String c rest)) = true).
    cbn [answerShape allChars]. rewrite Hc, Hr. reflexivity.
Qed.

(** X22. Every key the provider puts on the keypad keeps the typed answer
    in shape: if the answer is digits after an optional minus sign (the
    sign only when negatives are allowed for the question), it still is
    after [handleKeypadPress] for any key of [keypadRows]; the layout
    without negatives has no minus key; and typed text goes through the
    sanitizer, so it is in shape as well. *)
Theorem keypad_keeps_answer_shape (st : HookState) (key : string) :
  let allow := allowNegativeMemo st in
  In key (concat (keypadRows allow)) ->
  answerShape allow (answer st) = true ->
  answerShape allow (answer (handleKeypadPress key st)) = true
  /\ allowNegativeMemo (handleKeypadPress key st) = allow
  /\ ~ In "-" (concat (keypadRows false))
  /\ forall raw, answerShape allow (answer (handleAnswerChange raw st)) = true.
Proof.
  cbn zeta. intros Hkey Hshape.
  assert (Hmemo : allowNegativeMemo (handleKeypadPress key st)
                  = allowNegativeMemo st).
  { unfold handleKeypadPress, allowNegativeMemo.
    repeat match goal with
           | |- context [if ?c then _ else _] => destruct c
           end; reflexivity. }
  split; [|split; [exact Hmemo|split]].
  - unfold handleKeypadPress. destruct (answered st); [exact Hshape|].
    set (allow := allowNegativeMemo st) in *.
    assert (Hallow : allowNegativeMemo (setError None st) = allow)
      by reflexivity.
    destruct allow eqn:Ha; cbn in Hkey;
      repeat (destruct Hkey as [<- | Hkey]); try contradiction;
      cbn [String.eqb Ascii.eqb Bool.eqb andb];
      rewrite ?Hallow; cbn [negb setAnswer setError answer];
      try reflexivity;
      try (apply answerShape_dropLast; exact Hshape);
      try (apply press_minus_shape; exact Hshape);
      apply (press_digit_shape _ (answer st)); try exact Hshape;
      reflexivity.
  - cbn. intros H. repeat (destruct H as [H | H]; [discriminate|]).
    exact H.
  - intros raw. cbn. apply sanitize_shape.
Qed.

Lemma keypad_keeps_answer_shape_witness :
  answerShape false (answer (handleKeypadPress "DEL" awaitingWithDash))
  = true.
Proof.
  refine (proj1 (keypad_keeps_answer_shape
                   (handleKeypadPress "CLR" awaitingWithDash) "DEL" _ _)).
  - cbn. tauto.
  - reflexivity.
Defined.

Lemma isDash_eq (c : ascii) : isDash c = true -> c = "-"%char.
Proof.
  unfold isDash. intros H%Nat.eqb_eq.
  rewrite <- (ascii_nat_embedding c), H. reflexivity.
Qed.

Lemma toggle_twice (prev : string) :
  answerShape true prev = true ->
  let once :=
    if startsWithDash prev then dropFirst prev
    else if (String.length prev =? 0)%nat then "-"
    else if String.eqb prev "0" then "-0"
    else "-" +:+ prev in
  (if startsWithDash once then dropFirst once
   else if (String.length once =? 0)%nat then "-"
   else if String.eqb once "0" then "-0"
   else "-" +:+ once) = prev.
Proof.
  destruct prev as [|c rest]; [reflexivity|].
  cbn [answerShape startsWithDash dropFirst String.length Nat.eqb].
  intros [Hc Hr]%andb_true_iff.
  destruct (isDash c) eqn:Hdash.
  - apply isDash_eq in Hdash as ->. cbn zeta.
    destruct rest as [|c' rest']; [reflexivity|].
    cbn [allChars] in Hr. apply andb_true_iff in Hr as [Hc' _].
    cbn [startsWithDash String.length Nat.eqb].
    rewrite (digit_not_dash c' Hc').
    destruct (String.eqb_spec (String c' rest') "0") as [-> | _];
      reflexivity.
  - cbn zeta.
    destruct (String.eqb_spec (String c rest) "0") as [-> | _];
      reflexivity.
Qed.

(** X23. While negatives are allowed and the question is not answered,
    the minus key is a toggle: on an answer in shape, pressing it twice
    gives the answer back (the state differs from the one before only by
    the cleared error message). *)
Theorem minus_key_toggles (st : HookState) :
  answered st = false ->
  allowNegativeMemo st = true ->
  answerShape true (answer st) = true ->
  handleKeypadPress "-" (handleKeypadPress "-" st) = setError None st.
Proof.
  intros Ha Hallow Hshape.
  pose proof (toggle_twice (answer st) Hshape) as Htwice. cbn zeta in Htwice.
  unfold handleKeypadPress at 2. rewrite Ha.
  cbn [String.eqb Ascii.eqb Bool.eqb andb].
  assert (Hallow1 : allowNegativeMemo (setError None st) = true)
    by exact Hallow.
  rewrite Hallow1. cbn [negb].
  unfold handleKeypadPress. cbn [answered setAnswer setError].
  rewrite Ha. cbn [String.eqb Ascii.eqb Bool.eqb andb].
  unfold allowNegativeMemo in *.
  cbn [question settings setAnswer setError answer] in *.
  rewrite Hallow. cbn [negb]. rewrite Htwice.
  destruct st; reflexivity.
Qed.

Lemma minus_key_toggles_witness :
  answer (handleKeypadPress "-"
            (handleKeypadPress "-" (handleKeypadPress "7" negativeDrill)))
  = "7".
Proof.
  rewrite (minus_key_toggles (handleKeypadPress "7" negativeDrill));
    reflexivity.
Defined.

End Keypad.

(** ** Scoring an answer *)

Section Scoring.

Import Provider Session.

Variable Number : string -> JSNumber.

Lemma applyResult_scored (c : bool) (elapsed : Z) (timedOut : bool)
    (st : HookState) (q : Question) :
  question st = Some q ->
  applyResult c elapsed timedOut st
  = {| screen := screen st;
       stats := updateStats (statsRef st) (skill q) c elapsed;
       mode := mode st;
       settings := settings st;
       question := Some q;
       answer := answer st;
       feedback := Some {| fb_correct := c;
                           fb_expected := showZ (MathLib.answer q);
                           fb_ms := elapsed;
                           fb_skill := skill q;
                           fb_level := qlevel q;
                           fb_timedOut := timedOut |};
       error := None;
       session := bump c (session st);
       questionIndex := questionIndex st;
       timeLeft := timeLeft st;
       answered := true;
       startTimeRef := startTimeRef st;
       advanceTimerRef := advanceTimerRef st;
       statsRef := updateStats (statsRef st) (skill q) c elapsed;
       modeRef := modeRef st |}.
Proof.
  intros Hq. destruct st. cbn in Hq. subst. reflexivity.
Qed.

(** X24. A submission that parses to a number scores the question once:
    the stats become [updateStats] of the current stats for the skill of
    the question, with correctness decided by equality with the answer and
    the elapsed time counted from the start of the question; the matching
    session count goes up by one, the feedback records the result and the
    expected answer, the question is marked answered, the error is cleared,
    and the auto-advance is armed exactly when the answer was correct. *)
Theorem submission_scores_once (options : option SubmitOptions) (clock : Z)
    (st : HookState) (q : Question) (v : Z) :
  question st = Some q ->
  answered st = false ->
  parseNumericInput Number
    (sanitizeNumericInput (trim (answer st)) (allowNegativeMemo st))
  = Parsed v ->
  let st' := handleSubmit Number options clock st in
  let c := v =? MathLib.answer q in
  let elapsed := clock - startTimeRef st in
  statsRef st' = updateStats (statsRef st) (skill q) c elapsed
  /\ stats st' = statsRef st'
  /\ session st' = bump c (session st)
  /\ scored st' = scored st + 1
  /\ feedback st'
     = Some {| fb_correct := c;
               fb_expected := showZ (MathLib.answer q);
               fb_ms := elapsed;
               fb_skill := skill q;
               fb_level := qlevel q;
               fb_timedOut := false |}
  /\ answered st' = true
  /\ error st' = None
  /\ advanceTimerRef st' = None
  /\ autoAdvances st' = c
  /\ question st' = Some q
  /\ answer st' = answer st
  /\ timeLeft st' = timeLeft st.
Proof.
  intros Hq Ha Hparse. cbn zeta.
  assert (Hrun : handleSubmit Number options clock st
                 = applyResult (v =? MathLib.answer q)
                     (clock - startTimeRef st) false (clearAdvanceTimer st)).
  { unfold handleSubmit. rewrite Hq, Ha, Hparse. reflexivity. }
  rewrite Hrun, (applyResult_scored _ _ _ _ q) by exact Hq.
  cbn. unfold scored, bump. cbn.
  repeat split; try reflexivity.
  - destruct (v =? MathLib.answer q); lia.
  - apply orb_false_r.
Qed.

End Scoring.

Lemma submission_scores_once_witness :
  let st := Session.setAnswer " 3 " awaitingWithDash in
  Session.n_correct
    (Session.session
       (Session.handleSubmit Provider.NumberOfDigits None 2500 st)) = 1.
Proof.
  cbn zeta.
  pose proof (submission_scores_once Provider.NumberOfDigits None 2500
                (Session.setAnswer " 3 " awaitingWithDash)
                (mkQuestion "add-0-0" "1 + 2" 3 add 1) 3
                eq_refl eq_refl eq_refl) as H.
  cbn zeta in H. destruct H as (_ & _ & Hs & _).
  rewrite Hs. reflexivity.
Defined.

(** ** One result per question *)

Section OneResult.

Import Provider Session.

Variable Number : string -> JSNumber.








End OneResult.


(** ** The countdown *)

Section Countdown.

Import Provider Session.






End Countdown.

(** ** Questions of a session *)

Section SessionQuestions.

Import Provider Session.

Lemma generated_answer_nonneg k lv options e q :
  unitDraws e ->
  options ≫= optAllowNegative <> Some true ->
  generateQuestion k lv options e = Some q ->
  0 <= MathLib.answer q.
Proof.
  intros Hunit Hopt Hq.
  destruct (getLevelSpec_total k lv) as [spec Hspec].
  destruct (generateQuestion_unfold k lv options e spec Hspec)
    as (q' & Hq' & _ & _ & _ & Hbody).
  assert (q' = q) as -> by congruence.
  pose proof (drawn_in_range k lv spec e Hspec Hunit) as Hr.
  cbn zeta in Hbody.
  destruct k; destruct Hbody as [_ Hans]; rewrite Hans; try lia.
  - rewrite (spec_has_no_override _ _ _ Hspec).
    destruct (options ≫= optAllowNegative) as [[|]|];
      [congruence | |]; cbn; lia.
  - nia.
Qed.

Lemma provider_createQuestion k lv (cfg : MathSettings) e :
  exists q,
    Provider.createQuestion k lv cfg e = Some q
    /\ skill q = k /\ qlevel q = lv
    /\ (unitDraws e -> MathLib.answer q < 0 ->
        allowNegativeAnswer q cfg = true).
Proof.
  unfold Provider.createQuestion.
  set (flag := (if k is sub then true else false)
               && (0 <? negativeLevel cfg) && (negativeLevel cfg <=? lv)).
  destruct (getLevelSpec_total k lv) as [spec Hspec].
  destruct (generateQuestion_unfold k lv (Some (mkOptions (Some flag))) e
              spec Hspec) as (q & Hq & Hk & Hl & _).
  exists q. split; [exact Hq|]. split; [exact Hk|]. split; [exact Hl|].
  intros Hunit Hneg.
  assert (Hflag : allowNegativeAnswer q cfg = flag).
  { unfold allowNegativeAnswer. rewrite Hk, Hl. reflexivity. }
  rewrite Hflag. destruct flag; [reflexivity|].
  assert (Hoff : Some (mkOptions (Some false)) ≫= optAllowNegative
                 <> Some true) by (cbn; discriminate).
  pose proof (generated_answer_nonneg k lv _ e q Hunit Hoff Hq).
  lia.
Qed.

(** X27. The hook always gets a question when it asks for one, at the
    level the learner currently has in the skill of the question; in a
    fixed mode the skill is that of the mode, in mixed mode the one
    [pickSkill] returns.  With [Math.random()] in [0, 1), a question whose
    answer is negative comes only when the answer field accepts a minus
    sign for it, so only for a subtraction at or above a non-zero
    negative level. *)
Theorem session_question_fits (m : Mode) (pick : Q) (e : Entropy)
    (st : HookState) :
  exists q,
    createQuestion m pick e st = Some q
    /\ qlevel q = level (getSkill (statsRef st) (skill q))
    /\ skill q = match m with
                 | fixed k => k
                 | mix => pickSkill (statsRef st) pick
                 end
    /\ (unitDraws e -> MathLib.answer q < 0 ->
        allowNegativeAnswer q (settings st) = true
        /\ skill q = sub
        /\ 0 < negativeLevel (settings st) <= qlevel q).
Proof.
  unfold createQuestion.
  set (k := match m with
            | mix => pickSkill (statsRef st) pick
            | fixed k => k
            end).
  destruct (provider_createQuestion k (level (getSkill (statsRef st) k))
              (settings st) e) as (q & Hq & Hk & Hl & Hneg).
  exists q. split; [exact Hq|].
  split; [rewrite Hk; exact Hl|].
  split; [rewrite Hk; subst k; destruct m; reflexivity|].
  intros Hunit Hans. specialize (Hneg Hunit Hans).
  split; [exact Hneg|]. unfold allowNegativeAnswer in Hneg.
  destruct (skill q); try discriminate. cbn in Hneg.
  split; [reflexivity | lia].
Qed.

End SessionQuestions.

(** ** What the hook keeps true *)

Section Machine.

Import Provider Session.

Variable Number : string -> JSNumber.





Lemma createQuestion_total (m : Mode) (pick : Q) (e : Entropy)
    (st : HookState) :
  is_Some (createQuestion m pick e st).
Proof.
  unfold createQuestion.
  match goal with
  | |- is_Some (Provider.createQuestion ?k ?lv ?cfg e) =>
      destruct (provider_createQuestion k lv cfg e) as (q & Hq & _)
  end.
  rewrite Hq. eauto.
Qed.





End Machine.

(** ** A whole session *)

Section WholeSession.

Import Provider Session.

Variable Number : string -> JSNumber.

(** The state in the middle of a session of timeouts: question [k] is up
    and not answered, the [k - 1] before it were scored as wrong. *)
Let inRound (cfg : MathSettings) (k : Z) (st : HookState) : Prop :=
  is_Some (question st) /\ answered st = false
  /\ questionIndex st = k /\ session st = mkCounts 0 (k - 1)
  /\ settings st = cfg.

Lemma beginQuestion_fields (q : Question) (clock : Z) (st : HookState) :
  question (beginQuestion q clock st) = Some q
  /\ answered (beginQuestion q clock st) = false
  /\ questionIndex (beginQuestion q clock st) = questionIndex st
  /\ session (beginQuestion q clock st) = session st
  /\ settings (beginQuestion q clock st) = settings st
  /\ screen (beginQuestion q clock st) = screen st.
Proof. destruct st. repeat split. Qed.

Lemma handleNext_answered (pick : Q) (e : Entropy) (nc : Z)
    (st : HookState) (q : Question) :
  question st = Some q -> answered st = true ->
  (questionCount (settings st) < questionIndex st + 1 ->
   handleNext pick e nc st
   = Some (setAnswered false
             (setQuestion None
                (setScreen summaryScreen (clearAdvanceTimer st)))))
  /\ (questionIndex st + 1 <= questionCount (settings st) ->
      exists q',
        handleNext pick e nc st
        = Some (beginQuestion q' nc
                  (setQuestionIndex (questionIndex st + 1)
                     (clearAdvanceTimer st)))).
Proof.
  intros Hq Ha. unfold handleNext. rewrite Hq, Ha. cbn [negb].
  change (questionIndex (clearAdvanceTimer st)) with (questionIndex st).
  change (settings (clearAdvanceTimer st)) with (settings st).
  split; intros H.
  - assert ((questionCount (settings st) <? questionIndex st + 1) = true)
      as -> by lia.
    reflexivity.
  - assert ((questionCount (settings st) <? questionIndex st + 1) = false)
      as -> by lia.
    match goal with
    | |- context [createQuestion ?m pick e ?s] =>
        destruct (createQuestion_total m pick e s) as [q' Hq'];
        rewrite Hq'
    end.
    exists q'. reflexivity.
Qed.

Lemma timeout_then_next (cfg : MathSettings) (k : Z) (st : HookState)
    (tc : Z) (pick : Q) (e : Entropy) (nc : Z) :
  inRound cfg k st ->
  exists st',
    run Number [Timeout tc; Next pick e nc] st = Some st'
    /\ (k < questionCount cfg -> inRound cfg (k + 1) st')
    /\ (questionCount cfg <= k ->
        screen st' = summaryScreen /\ question st' = None
        /\ answered st' = false /\ session st' = mkCounts 0 k
        /\ questionIndex st' = k).
Proof.
  intros ([q Hq] & Ha & Hi & Hs & Hc).
  cbn [run step mbind option_bind].
  assert (Hto : handleTimeout tc st
                = applyResult false (tc - startTimeRef st) true st).
  { unfold handleTimeout. rewrite Hq, Ha. reflexivity. }
  rewrite Hto, (applyResult_scored _ _ _ _ q Hq).
  match goal with
  | |- context [handleNext pick e nc ?s] => set (st1 := s)
  end.
  assert (Hs1 : session st1 = mkCounts 0 k).
  { subst st1. cbn. rewrite Hs. unfold bump. cbn. f_equal; lia. }
  destruct (handleNext_answered pick e nc st1 q eq_refl eq_refl)
    as [Hlast Hmore].
  change (questionIndex st1) with (questionIndex st) in Hlast, Hmore.
  change (settings st1) with (settings st) in Hlast, Hmore.
  rewrite Hi, Hc in Hlast, Hmore.
  destruct (Z_lt_le_dec (questionCount cfg) (k + 1)) as [Hk | Hk].
  - rewrite (Hlast Hk). eexists. split; [reflexivity|]. split; [lia|].
    intros _. repeat split; try reflexivity; [exact Hs1 | exact Hi].
  - destruct (Hmore Hk) as [q' Hq']. rewrite Hq'.
    eexists. split; [reflexivity|]. split; [|lia]. intros _.
    unfold inRound.
    match goal with
    | |- context [beginQuestion q' nc ?s] =>
        destruct (beginQuestion_fields q' nc s)
          as (Hbq & Hba & Hbi & Hbs & Hbc & _)
    end.
    rewrite Hbq, Hba, Hbi, Hbs, Hbc.
    repeat split; eauto.
    change (session st1 = mkCounts 0 (k + 1 - 1)).
    rewrite Hs1. f_equal. lia.
Qed.

Lemma timeouts_to_summary (cfg : MathSettings)
    (rounds : list (Z * (Q * Entropy * Z))) :
  forall (k : Z) (st : HookState),
    inRound cfg k st -> k <= questionCount cfg ->
    Z.of_nat (length rounds) = questionCount cfg - k + 1 ->
    exists st',
      run Number
        (flat_map (fun r => [Timeout r.1; Next r.2.1.1 r.2.1.2 r.2.2])
                  rounds) st = Some st'
      /\ screen st' = summaryScreen /\ question st' = None
      /\ answered st' = false
      /\ session st' = mkCounts 0 (questionCount cfg).
Proof.
  induction rounds as [|[tc [[pick e] nc]] rounds IH]; intros k st Hin Hk Hlen.
  - cbn [length] in Hlen. destruct Hin as (_ & _ & _ & _ & _). lia.
  - cbn [flat_map fst snd].
    destruct (timeout_then_next cfg k st tc pick e nc Hin)
      as (st1 & Hrun1 & Hmore & Hlast).
    change (run Number ([Timeout tc; Next pick e nc] ++ ?l) st)
      with (st' ← step Number (Timeout tc) st;
            st'' ← step Number (Next pick e nc) st';
            run Number l st'').
    cbn [run] in Hrun1.
    destruct (step Number (Timeout tc) st) as [sa|]; [|discriminate].
    cbn [mbind option_bind] in Hrun1 |- *.
    destruct (step Number (Next pick e nc) sa) as [sb|]; [|discriminate].
    cbn [mbind option_bind] in Hrun1 |- *. injection Hrun1 as ->.
    cbn [length] in Hlen.
    destruct rounds as [|r rounds'].
    + cbn [length] in Hlen.
      destruct (Hlast ltac:(lia)) as (Hs1 & Hq1 & Ha1 & Hn1 & _).
      exists st1. cbn [flat_map run].
      repeat split; try assumption. rewrite Hn1. f_equal. lia.
    + cbn [length] in Hlen.
      apply (IH (k + 1)); [apply Hmore; lia | lia | cbn [length]; lia].
Qed.

(** X29. A session runs for exactly as many questions as the settings
    ask: started in any mode from a state whose settings are within bounds,
    with every question left to time out and followed by a call of next,
    it is on the summary screen after [questionCount] rounds, with no
    question up, [questionCount] wrong answers counted and no correct
    one. *)
Theorem session_ends_after_question_count (st : HookState) (m : Mode)
    (pick : Q) (e : Entropy) (clock : Z)
    (rounds : list (Z * (Q * Entropy * Z))) :
  inBounds (settings st) ->
  Z.of_nat (length rounds) = questionCount (settings st) ->
  exists st',
    run Number (timedOutSession m pick e clock rounds) st = Some st'
    /\ screen st' = summaryScreen
    /\ question st' = None
    /\ answered st' = false
    /\ session st' = mkCounts 0 (questionCount (settings st))
    /\ scored st' = questionCount (settings st).
Proof.
  intros Hb Hlen. unfold timedOutSession. cbn [run step].
  unfold startSession.
  match goal with
  | |- context [createQuestion m pick e ?s] =>
      destruct (createQuestion_total m pick e s) as [q Hq]; rewrite Hq
  end.
  cbn [mbind option_bind].
  match goal with
  | |- context [beginQuestion q clock ?s] =>
      destruct (beginQuestion_fields q clock s)
        as (Hbq & Hba & Hbi & Hbs & Hbc & _);
      destruct (timeouts_to_summary (settings st) rounds 1
                  (beginQuestion q clock s))
        as (st' & Hrun & Hs & Hqn & Ha & Hn)
  end.
  - unfold inRound. rewrite Hbq, Hba, Hbi, Hbs, Hbc.
    repeat split; eauto.
  - apply inBounds_fields in Hb. lia.
  - lia.
  - exists st'. split; [exact Hrun|].
    repeat split; try assumption.
    unfold scored. rewrite Hn. cbn. lia.
Qed.

End WholeSession.

Lemma session_ends_witness :
  exists st',
    run Provider.NumberOfDigits
      (timedOutSession (Session.fixed mul) 0 (mkEntropy 0 0 0 "0") 0
         (replicate 10 (0, (0%Q, mkEntropy 0 0 0 "0", 0))))
      awaitingWithDash = Some st'
    /\ Session.screen st' = Session.summaryScreen.
Proof.
  destruct (session_ends_after_question_count Provider.NumberOfDigits
              awaitingWithDash (Session.fixed mul) 0 (mkEntropy 0 0 0 "0") 0
              (replicate 10 (0, (0%Q, mkEntropy 0 0 0 "0", 0))))
    as (st' & Hrun & Hs & _).
  - apply inBounds_fields. cbn. lia.
  - reflexivity.
  - exists st'. split; assumption.
Defined.
